(** * A shallow embedding of the AutoLab temperature regulator

    The simulated plant and PID law of [CryoSystem.py], the setpoint
    scheduler of [TemperatureController.py], the CSV schedule reader
    [read_schedule_from_csv], and the simulated PID cooler instrument
    ([src/instruments/pid_cooler_simulator/interface.py]): its setpoint
    cursor, [update_state], the CSV log, the plotting deques, the Dash
    callbacks, [_parse_time] and the y-axis range of [update_display].

    Python floats are modelled as exact rationals [Q].  Sensor noise
    ([np.random.normal]) and the wall clock ([time.time()]) are inputs of a
    tick.  An exception raised by the Python code is [None]. *)

From Stdlib Require Import PeanoNat QArith Qabs Qminmax Qround Qfield Lqa List Bool String Ascii Lia.
Import ListNotations.

Open Scope Q_scope.

(** Python comparisons on floats, as booleans. *)
Definition Qltb (x y : Q) : bool := negb (Qle_bool y x).

(** Python's [max(a, b)]: keeps [a] unless [b > a]. *)
Definition py_max (a b : Q) : Q := if Qltb a b then b else a.

(** Python's [min(a, b)]: keeps [a] unless [b < a]. *)
Definition py_min (a b : Q) : Q := if Qltb b a then b else a.

(** Python's [abs] on floats. *)
Definition py_abs (x : Q) : Q := if Qltb x 0 then - x else x.

(** ** CryoSystem.py *)
Module CryoSystem.

Definition DEFAULT_KP : Q := -130.
Definition DEFAULT_KI : Q := -(3#2).
Definition DEFAULT_KD : Q := -600.

Record CryoSystem := mkCryo {
    temperature : Q;
    cooling_power : Q;
    filtered_temp : Q;
    last_filtered_temp : Q;
    target_setpoint : Q;
    kp : Q;
    ki : Q;
    kd : Q;
    ambient_temp : Q;
    parasitic_heat_load : Q;
    heat_loss_coeff : Q;
    cooling_effect_factor : Q;
    noise_level : Q;
    filter_alpha : Q;
    integral_sum : Q
  }.

  (** [CryoSystem.__init__(initial_temp)] *)
Definition init (initial_temp : Q) : CryoSystem :=
    {| temperature := initial_temp;
       cooling_power := 0;
       filtered_temp := initial_temp;
       last_filtered_temp := initial_temp;
       target_setpoint := initial_temp;
       kp := DEFAULT_KP;
       ki := DEFAULT_KI;
       kd := DEFAULT_KD;
       ambient_temp := 300;
       parasitic_heat_load := 1#10;
       heat_loss_coeff := 1#10000;
       cooling_effect_factor := 2;
       noise_level := 1#10;
       filter_alpha := 1#5;
       integral_sum := 0 |}.

  (** [CryoSystem.update_temperature(target_setpoint)]; [noise] is the
      sample drawn from [np.random.normal(0, self.noise_level)].  Returns
      the value returned by the method and the new object state. *)
Definition update_temperature (self : CryoSystem) (target : Q) (noise : Q)
      : Q * CryoSystem :=
    let current_temp_reading := temperature self + noise in
    let filtered :=
      filter_alpha self * current_temp_reading
      + (1 - filter_alpha self) * filtered_temp self in
    let error := target - filtered in
    let integral :=
      if Qltb 0 (cooling_power self) && Qltb (cooling_power self) 100
      then integral_sum self + error * 1
      else integral_sum self in
    let derivative := (filtered - last_filtered_temp self) / 1 in
    let output := kp self * error + ki self * integral - kd self * derivative in
    let control_output := py_max 0 (py_min 100 output) in
    let radiative_heat_transfer :=
      heat_loss_coeff self * (ambient_temp self - temperature self) in
    let active_cooling := - cooling_effect_factor self * control_output / 100 in
    let temp1 := temperature self
                 + (radiative_heat_transfer + parasitic_heat_load self
                    + active_cooling) * 1 in
    let temp2 := py_max 0 temp1 in
    (temp2,
     {| temperature := temp2;
        cooling_power := control_output;
        filtered_temp := filtered;
        last_filtered_temp := filtered;
        target_setpoint := target;
        kp := kp self;
        ki := ki self;
        kd := kd self;
        ambient_temp := ambient_temp self;
        parasitic_heat_load := parasitic_heat_load self;
        heat_loss_coeff := heat_loss_coeff self;
        cooling_effect_factor := cooling_effect_factor self;
        noise_level := noise_level self;
        filter_alpha := filter_alpha self;
        integral_sum := integral |}).

Definition get_temperature (self : CryoSystem) : Q := temperature self.
Definition get_filtered_temperature (self : CryoSystem) : Q := filtered_temp self.

End CryoSystem.

(** The spec's clamp of the raw PID output to [[0, 100]]. *)
Definition clamp_0_100 (x : Q) : Q := Qmax 0 (Qmin 100 x).

(** ** TemperatureController.py *)
Module TemperatureController.

Definition DEFAULT_SETPOINTS : list Q := [300; 298; 295].
Definition DEFAULT_STABLE_TIMES : list Q := [10; 10; 10].

  (** *** [read_schedule_from_csv] *)

  (** What [open(filename)] followed by iterating the [csv.reader] yields:
      the file is missing, all rows are read, or some rows are read and
      then an exception other than [FileNotFoundError] is raised. *)
Inductive csv_file :=
  | FileNotFound
  | Rows (rows : list (list string))
  | ReadError (rows_before_error : list (list string)).

  (** The characters [str.strip()] removes, for characters 0-255: tab to
      carriage return, the separators 0x1C-0x1F, space, NEL and NBSP. *)
Definition is_space (c : ascii) : bool :=
    let n := nat_of_ascii c in
    (Nat.leb 9 n && Nat.leb n 13) || (Nat.leb 28 n && Nat.leb n 32) ||
    Nat.eqb n 133 || Nat.eqb n 160.

Fixpoint drop_spaces (l : list ascii) : list ascii :=
    match l with
    | c :: l' => if is_space c then drop_spaces l' else l
    | [] => []
    end.

  (** [str.strip()] *)
Definition strip (s : string) : string :=
    string_of_list_ascii
      (rev (drop_spaces (rev (drop_spaces (list_ascii_of_string s))))).

Definition lower_ascii (c : ascii) : ascii :=
    let n := nat_of_ascii c in
    if Nat.leb 65 n && Nat.leb n 90 then ascii_of_nat (n + 32) else c.

  (** [str.lower()] on ASCII text. *)
Definition lower (s : string) : string :=
    string_of_list_ascii (map lower_ascii (list_ascii_of_string s)).

Section Reader.
    (** Python's [float(...)] on a stripped cell; [None] is [ValueError]. *)
Variable float : string -> option Q.

    (** [[float(x.strip()) for x in cells if x.strip()]]; [None] when a
        [ValueError] escapes the comprehension. *)
Fixpoint parse_floats (cells : list string) : option (list Q) :=
      match cells with
      | [] => Some []
      | x :: xs =>
          if String.eqb (strip x) ""%string then parse_floats xs
          else match float (strip x), parse_floats xs with
               | Some q, Some l => Some (q :: l)
               | _, _ => None
               end
      end.

    (** One iteration of [for row in reader]. *)
Definition read_row (acc : list Q * list Q) (row : list string)
        : list Q * list Q :=
      let (setpoints, stable_times) := acc in
      match row with
      | label :: ((_ :: _) as cells) =>
          if String.eqb (lower label) "setpoints"%string then
            match parse_floats cells with
            | Some l => (l, stable_times)
            | None => acc
            end
          else if String.eqb (lower label) "stable_times"%string then
            match parse_floats cells with
            | Some l => (setpoints, l)
            | None => acc
            end
          else acc
      | _ => acc
      end.

    (** The two lists after the [try] block, before the length check. *)
Definition parse_schedule (file : csv_file) : list Q * list Q :=
      let defaults := (DEFAULT_SETPOINTS, DEFAULT_STABLE_TIMES) in
      match file with
      | FileNotFound => defaults
      | Rows rows => fold_left read_row rows defaults
      | ReadError rows => fold_left read_row rows defaults
      end.

Definition read_schedule_from_csv (file : csv_file) : list Q * list Q :=
      let (setpoints, stable_times) := parse_schedule file in
      if negb (Nat.eqb (List.length stable_times) (List.length setpoints)) then
        (setpoints, repeat (nth 0 DEFAULT_STABLE_TIMES 0) (List.length setpoints))
      else (setpoints, stable_times).
End Reader.

  (** A decimal instance of [float]: an optional sign, digits, and an
      optional fractional part ([12], [-3.5], [.25]). *)
Fixpoint digits_value (l : list ascii) (acc : Z) (den : positive)
      (seen_dot : bool) : option (Z * positive) :=
    match l with
    | [] => Some (acc, den)
    | c :: l' =>
        let n := nat_of_ascii c in
        if Nat.leb 48 n && Nat.leb n 57 then
          digits_value l' (acc * 10 + Z.of_nat (n - 48))%Z
            (if seen_dot then (den * 10)%positive else den) seen_dot
        else if Nat.eqb n 46 && negb seen_dot then
          digits_value l' acc den true
        else None
    end.

Definition decimal_float (s : string) : option Q :=
    let l := list_ascii_of_string s in
    let '(neg, body) :=
      match l with
      | c :: l' => if Nat.eqb (nat_of_ascii c) 45 then (true, l') else (false, l)
      | [] => (false, l)
      end in
    match body with
    | [] => None
    | _ =>
        match digits_value body 0%Z 1%positive false with
        | Some (z, d) => Some (if neg then Qmake (- z) d else Qmake z d)
        | None => None
        end
    end.

  (** *** [class TemperatureController] *)
Record TemperatureController := mkController {
    setpoint_schedule : list Q;
    setpoint_stable_times : list Q;
    cryo_system : CryoSystem.CryoSystem;
    temperature : Q;
    integral_sum : Q;
    schedule_index : nat;
    target_setpoint : Q;
    current_stable_time : Q;
    stabilization_start_time : option Q;
    is_stable : bool;
    update_requested : bool;
    is_debug_mode : bool
  }.

  (** [__init__] from the two schedule lists it obtained (the defaults, or
      what [read_schedule_from_csv] returned); [None] is the [IndexError] of
      an empty list. *)
Definition init_with (sp st : list Q) : option TemperatureController :=
    let cs := CryoSystem.init 300 in
    match nth_error sp 0, nth_error st 0 with
    | Some target, Some dwell =>
        Some {| setpoint_schedule := sp;
                setpoint_stable_times := st;
                cryo_system := cs;
                temperature := CryoSystem.get_temperature cs;
                integral_sum := 0;
                schedule_index := 0;
                target_setpoint := target;
                current_stable_time := dwell;
                stabilization_start_time := None;
                is_stable := false;
                update_requested := false;
                is_debug_mode := true |}
    | _, _ => None
    end.

  (** [TemperatureController(config_file)]: [None] for no file. *)
Definition __init__ (float : string -> option Q) (config_file : option csv_file)
      : option TemperatureController :=
    match config_file with
    | Some file =>
        let (sp, st) := read_schedule_from_csv float file in init_with sp st
    | None => init_with DEFAULT_SETPOINTS DEFAULT_STABLE_TIMES
    end.

  (** Attribute assignments used below. *)
Definition set_timer (self : TemperatureController) (start : option Q)
      (stable : bool) : TemperatureController :=
    {| setpoint_schedule := setpoint_schedule self;
       setpoint_stable_times := setpoint_stable_times self;
       cryo_system := cryo_system self;
       temperature := temperature self;
       integral_sum := integral_sum self;
       schedule_index := schedule_index self;
       target_setpoint := target_setpoint self;
       current_stable_time := current_stable_time self;
       stabilization_start_time := start;
       is_stable := stable;
       update_requested := update_requested self;
       is_debug_mode := is_debug_mode self |}.

Definition set_flags (self : TemperatureController) (requested debug : bool)
      : TemperatureController :=
    {| setpoint_schedule := setpoint_schedule self;
       setpoint_stable_times := setpoint_stable_times self;
       cryo_system := cryo_system self;
       temperature := temperature self;
       integral_sum := integral_sum self;
       schedule_index := schedule_index self;
       target_setpoint := target_setpoint self;
       current_stable_time := current_stable_time self;
       stabilization_start_time := stabilization_start_time self;
       is_stable := is_stable self;
       update_requested := requested;
       is_debug_mode := debug |}.

Definition set_plant (self : TemperatureController) (cs : CryoSystem.CryoSystem)
      (temp : Q) : TemperatureController :=
    {| setpoint_schedule := setpoint_schedule self;
       setpoint_stable_times := setpoint_stable_times self;
       cryo_system := cs;
       temperature := temp;
       integral_sum := integral_sum self;
       schedule_index := schedule_index self;
       target_setpoint := target_setpoint self;
       current_stable_time := current_stable_time self;
       stabilization_start_time := stabilization_start_time self;
       is_stable := is_stable self;
       update_requested := update_requested self;
       is_debug_mode := is_debug_mode self |}.

Definition set_debug_mode (self : TemperatureController) (is_debug : bool)
      : TemperatureController :=
    set_flags self (update_requested self) is_debug.

Definition request_update (self : TemperatureController) : TemperatureController :=
    if is_debug_mode self then set_flags self true (is_debug_mode self) else self.

Definition _is_temperature_stable (self : TemperatureController)
      (target_temp threshold : Q) : bool :=
    Qle_bool (py_abs (temperature self - target_temp)) threshold.

  (** The advance branch, lines 164-173: index, target and dwell of the next
      entry, then the resets.  [None] is an [IndexError]. *)
Definition advance (self : TemperatureController) : option TemperatureController :=
    let i := S (schedule_index self) in
    match nth_error (setpoint_schedule self) i,
          nth_error (setpoint_stable_times self) i with
    | Some target, Some dwell =>
        Some {| setpoint_schedule := setpoint_schedule self;
                setpoint_stable_times := setpoint_stable_times self;
                cryo_system := cryo_system self;
                temperature := temperature self;
                integral_sum := 0;
                schedule_index := i;
                target_setpoint := target;
                current_stable_time := dwell;
                stabilization_start_time := None;
                is_stable := false;
                update_requested := false;
                is_debug_mode := is_debug_mode self |}
    | _, _ => None
    end.

  (** [_update_target_setpoint(current_time, stability_threshold)].  The
      boolean is [true] when [_on_stabilized()] was called. *)
Definition _update_target_setpoint (self : TemperatureController)
      (current_time stability_threshold : Q)
      : option (TemperatureController * bool) :=
    let is_last_setpoint :=
      Nat.leb (List.length (setpoint_schedule self) - 1) (schedule_index self) in
    if _is_temperature_stable self (target_setpoint self) stability_threshold then
      match stabilization_start_time self with
      | None => Some (set_timer self (Some current_time) (is_stable self), false)
      | Some start =>
          if Qle_bool (current_stable_time self) (current_time - start) then
            let '(self1, fired) :=
              if negb (is_stable self)
              then (set_timer self (Some start) true, true)
              else (self, false) in
            if update_requested self1 then
              if is_last_setpoint then Some (self1, fired)
              else match advance self1 with
                   | Some self2 => Some (self2, fired)
                   | None => None
                   end
            else Some (self1, fired)
          else Some (self, false)
      end
    else Some (set_timer self None false, false).

  (** [update()]: [current_time] is [time.time()], [noise] the plant's
      sensor noise sample. *)
Definition update (self : TemperatureController) (current_time noise : Q)
      : option (TemperatureController * bool) :=
    let (temp, cs) :=
      CryoSystem.update_temperature (cryo_system self) (target_setpoint self) noise in
    _update_target_setpoint (set_plant self cs temp) current_time (1#2).

  (** The operations a running controller receives. *)
Inductive event :=
  | Tick (current_time noise : Q)
  | RequestUpdate
  | SetDebugMode (is_debug : bool).

Definition step (self : TemperatureController) (e : event)
      : option (TemperatureController * bool) :=
    match e with
    | Tick t n => update self t n
    | RequestUpdate => Some (request_update self, false)
    | SetDebugMode b => Some (set_debug_mode self b, false)
    end.

Fixpoint run (self : TemperatureController) (es : list event)
      : option TemperatureController :=
    match es with
    | [] => Some self
    | e :: es' =>
        match step self e with
        | Some (self', _) => run self' es'
        | None => None
        end
    end.

  (** States of a controller built by [__init__] from any schedule lists. *)
Definition reachable (c : TemperatureController) : Prop :=
    exists sp st c0 es, init_with sp st = Some c0 /\ run c0 es = Some c.

  (** [_is_temperature_stable] at the current target with [update()]'s
      default threshold. *)
Definition in_band (self : TemperatureController) : bool :=
    _is_temperature_stable self (target_setpoint self) (1#2).

  (** A run of [update()] calls, each given its clock reading and noise
      sample: the clock reading and the state after each call. *)
Fixpoint run_ticks (self : TemperatureController) (ticks : list (Q * Q))
      : option (list (Q * TemperatureController)) :=
    match ticks with
    | [] => Some []
    | (t, n) :: ticks' =>
        match update self t n with
        | Some (self', _) => option_map (cons (t, self')) (run_ticks self' ticks')
        | None => None
        end
    end.

  (** The controller after a run of ticks: the last state recorded, or the
      initial one when no tick ran. *)
Fixpoint final_state (self : TemperatureController) (posts : list (Q * TemperatureController))
      : TemperatureController :=
    match posts with
    | [] => self
    | (_, self') :: posts' => final_state self' posts'
    end.

  (** Each step of a run of events: the state before, the state after, and
      whether [_on_stabilized()] was called. *)
Fixpoint trace (self : TemperatureController) (es : list event)
      : option (list (TemperatureController * TemperatureController * bool)) :=
    match es with
    | [] => Some []
    | e :: es' =>
        match step self e with
        | Some (self', fired) => option_map (cons (self, self', fired)) (trace self' es')
        | None => None
        end
    end.

  (** Every attribute of the controller except the plant object. *)
Definition scheduler_view (self : TemperatureController) :=
    (setpoint_schedule self, setpoint_stable_times self, temperature self,
     integral_sum self, schedule_index self, target_setpoint self,
     current_stable_time self, stabilization_start_time self, is_stable self,
     update_requested self, is_debug_mode self).

End TemperatureController.

(** ** src/instruments/pid_cooler_simulator/interface.py *)
Module PidCoolerSimulator.

  (** [class PIDCoolerSimulator] *)
Record PIDCoolerSimulator := mkSimulator {
    _temperature : Q;
    _setpoint : Q;
    _velocity : Q;
    _power : Q;
    last_update_time : Q
  }.

Definition set_setpoint (self : PIDCoolerSimulator) (temp : Q) : PIDCoolerSimulator :=
    {| _temperature := _temperature self;
       _setpoint := temp;
       _velocity := _velocity self;
       _power := _power self;
       last_update_time := last_update_time self |}.

  (** An entry of [config["schedule"]]: a dict with the keys [setpoint] and
      [dwell_time]. *)
Record schedule_item := mkItem { setpoint : Q; dwell_time_of : Q }.

  (** The attributes of [InstrumentInterface] that [_go_to_next_setpoint]
      reads or writes; [device] is [None] until [connect()]. *)
Record InstrumentInterface := mkInstrument {
    schedule : list schedule_item;
    device : option PIDCoolerSimulator;
    is_connected : bool;
    schedule_index : nat;
    target_setpoint : Q;
    dwell_time : Q;
    is_stable : bool;
    stabilization_start_time : option Q;
    stable_duration : Q;
    auto_mode : bool
  }.

  (** Outcome of a method: it returns, or raises with the attributes as
      they were when the exception was raised. *)
Inductive outcome (A : Type) :=
  | Returned (self : A)
  | Raised (self : A).
Arguments Returned {A} self.
Arguments Raised {A} self.

Definition outcome_self {A : Type} (o : outcome A) : A :=
    match o with Returned s => s | Raised s => s end.

  (** [_go_to_next_setpoint()].  [% len(self.schedule)] raises
      [ZeroDivisionError] on an empty schedule; [self.device.set_setpoint]
      raises [AttributeError] while [device] is [None], after the index,
      target and dwell time have been assigned. *)
Definition _go_to_next_setpoint (self : InstrumentInterface)
      : outcome InstrumentInterface :=
    match List.length (schedule self) with
    | O => Raised self
    | len =>
        let i := Nat.modulo (S (schedule_index self)) len in
        match nth_error (schedule self) i with
        | None => Raised self
        | Some item =>
            let moved :=
              {| schedule := schedule self;
                 device := device self;
                 is_connected := is_connected self;
                 schedule_index := i;
                 target_setpoint := setpoint item;
                 dwell_time := dwell_time_of item;
                 is_stable := is_stable self;
                 stabilization_start_time := stabilization_start_time self;
                 stable_duration := stable_duration self;
                 auto_mode := auto_mode self |} in
            match device self with
            | None => Raised moved
            | Some d =>
                Returned
                  {| schedule := schedule self;
                     device := Some (set_setpoint d (setpoint item));
                     is_connected := is_connected self;
                     schedule_index := i;
                     target_setpoint := setpoint item;
                     dwell_time := dwell_time_of item;
                     is_stable := false;
                     stabilization_start_time := None;
                     stable_duration := 0;
                     auto_mode := auto_mode self |}
            end
        end
    end.

End PidCoolerSimulator.

(** ** The rest of the simulated PID cooler instrument *)
Module PidCoolerInstrument.
Import PidCoolerSimulator.

  (** Python's [x % y] on floats for [y > 0]. *)
Definition py_mod (x y : Q) : Q := x - y * inject_Z (Qfloor (x / y)).

  (** [PIDCoolerSimulator.get_temperature()]: [current_time] is the
      [time.time()] read for [dt], [noise_time] the one read for the noise
      term.  The unused gain [I] and [D] are left out. *)
Definition get_temperature (self : PIDCoolerSimulator) (current_time noise_time : Q)
      : Q * PIDCoolerSimulator :=
    let P := 2#25 in
    let dt := current_time - last_update_time self in
    let error := _setpoint self - _temperature self in
    let damping := 1#5 in
    let spring_stiffness := 1#10 in
    let force := error * P in
    let acceleration := force - _velocity self * damping in
    let velocity := _velocity self + acceleration * dt * spring_stiffness in
    let temp1 := _temperature self + velocity * dt in
    let temp2 := temp1 + (py_mod noise_time (1#10) - (1#20)) in
    (temp2,
     {| _temperature := temp2;
        _setpoint := _setpoint self;
        _velocity := velocity;
        _power := _power self;
        last_update_time := current_time |}).

  (** [PIDCoolerSimulator()] created at clock reading [t]. *)
Definition new_simulator (t : Q) : PIDCoolerSimulator :=
    {| _temperature := 300; _setpoint := 300; _velocity := 0; _power := 0;
       last_update_time := t |}.

  (** The attributes of [InstrumentInterface] beside those of
      [PidCoolerSimulator.InstrumentInterface]: the start time, the three
      plotting deques, the data rows of the CSV log (header excluded) and
      the logging counters. *)
Record Instrument := mkInst {
    iface : InstrumentInterface;
    start_time : option Q;
    time_history : list Q;
    temp_history : list Q;
    setpoint_history : list Q;
    log_rows : list (string * Q * Q);
    log_write_counter : nat;
    _last_logged_second : option string
  }.

Definition HISTORY_MAXLEN : nat := 600.
Definition log_write_interval : nat := 100.

  (** [deque.append(x)] on a deque with [maxlen]: when full, the leftmost
      item is discarded. *)
Definition deque_append {A : Type} (maxlen : nat) (d : list A) (x : A) : list A :=
    if Nat.ltb (List.length d) maxlen then d ++ [x] else tl d ++ [x].

  (** What one call of [update_state] reads from the environment. *)
Record env := mkEnv {
    read_time : Q;        (* time.time() in device.get_temperature() *)
    noise_time : Q;       (* time.time() for the simulator's noise term *)
    now : Q;              (* current_time = time.time() in update_state *)
    now_second : string;  (* strftime('%Y-%m-%d %H:%M:%S') of that time *)
    append_ok : bool;     (* appending to the log file raises no IOError *)
    log_oversize : bool   (* os.path.getsize(log_file) > 5 MiB at the check *)
  }.

Definition set_iface (self : Instrument) (c : InstrumentInterface) : Instrument :=
    {| iface := c;
       start_time := start_time self;
       time_history := time_history self;
       temp_history := temp_history self;
       setpoint_history := setpoint_history self;
       log_rows := log_rows self;
       log_write_counter := log_write_counter self;
       _last_logged_second := _last_logged_second self |}.

Definition set_log (self : Instrument) (rows : list (string * Q * Q)) (counter : nat)
      (last : option string) : Instrument :=
    {| iface := iface self;
       start_time := start_time self;
       time_history := time_history self;
       temp_history := temp_history self;
       setpoint_history := setpoint_history self;
       log_rows := rows;
       log_write_counter := counter;
       _last_logged_second := last |}.

Definition outcome_map {A B : Type} (f : A -> B) (o : outcome A) : outcome B :=
    match o with Returned s => Returned (f s) | Raised s => Raised (f s) end.

  (** Assignments of the stability attributes. *)
Definition with_stability (c : InstrumentInterface) (start : option Q) (duration : Q)
      (stable : bool) : InstrumentInterface :=
    {| schedule := schedule c;
       device := device c;
       is_connected := is_connected c;
       schedule_index := schedule_index c;
       target_setpoint := target_setpoint c;
       dwell_time := dwell_time c;
       is_stable := stable;
       stabilization_start_time := start;
       stable_duration := duration;
       auto_mode := auto_mode c |}.

Definition with_device (c : InstrumentInterface) (dev : option PIDCoolerSimulator)
      (connected : bool) : InstrumentInterface :=
    {| schedule := schedule c;
       device := dev;
       is_connected := connected;
       schedule_index := schedule_index c;
       target_setpoint := target_setpoint c;
       dwell_time := dwell_time c;
       is_stable := is_stable c;
       stabilization_start_time := stabilization_start_time c;
       stable_duration := stable_duration c;
       auto_mode := auto_mode c |}.

Definition with_auto_mode (c : InstrumentInterface) (auto : bool) : InstrumentInterface :=
    {| schedule := schedule c;
       device := device c;
       is_connected := is_connected c;
       schedule_index := schedule_index c;
       target_setpoint := target_setpoint c;
       dwell_time := dwell_time c;
       is_stable := is_stable c;
       stabilization_start_time := stabilization_start_time c;
       stable_duration := stable_duration c;
       auto_mode := auto |}.

  (** [InstrumentInterface.__init__(instrument_id, config)], lines 79-110:
      [config_schedule] is [config.get("schedule")] ([None] when the key is
      missing); [existing_rows] are the data rows already in the log file
      ([_init_log_file] only writes a header to a new file). *)
Definition __init__ (config_schedule : option (list schedule_item))
      (existing_rows : list (string * Q * Q)) : Instrument :=
    let sched :=
      match config_schedule with
      | Some ((_ :: _) as l) => l
      | _ => [mkItem 273 10]
      end in
    let first := hd (mkItem 273 10) sched in
    {| iface :=
         {| schedule := sched;
            device := None;
            is_connected := false;
            schedule_index := 0;
            target_setpoint := setpoint first;
            dwell_time := dwell_time_of first;
            is_stable := false;
            stabilization_start_time := None;
            stable_duration := 0;
            auto_mode := true |};
       start_time := None;
       time_history := [];
       temp_history := [];
       setpoint_history := [];
       log_rows := existing_rows;
       log_write_counter := 0;
       _last_logged_second := None |}.

  (** [connect()]: [t_device] is the clock reading of [PIDCoolerSimulator()],
      [t_start] that of [datetime.now()]; it returns [True]. *)
Definition connect (self : Instrument) (t_device t_start : Q) : Instrument * bool :=
    let c := iface self in
    let dev := set_setpoint (new_simulator t_device) (target_setpoint c) in
    ({| iface := with_device c (Some dev) true;
        start_time := Some t_start;
        time_history := time_history self;
        temp_history := temp_history self;
        setpoint_history := setpoint_history self;
        log_rows := log_rows self;
        log_write_counter := log_write_counter self;
        _last_logged_second := _last_logged_second self |}, true).

  (** [disconnect()]; it returns [True]. *)
Definition disconnect (self : Instrument) : Instrument * bool :=
    (set_iface self (with_device (iface self) (device (iface self)) false), true).

  (** [_trim_log_file()]: when the file is over the size limit, the oldest
      [int(len(df) * 0.25)] data rows are dropped. *)
Definition _trim_log_file (rows : list (string * Q * Q)) (oversize : bool)
      : list (string * Q * Q) :=
    if oversize then skipn (Nat.div (List.length rows) 4) rows else rows.

  (** [_log_data(timestamp, temperature, setpoint)], with
      [current_second_str] given; an [IOError] on the append ([append_ok]
      false) changes nothing. *)
Definition _log_data (self : Instrument) (current_second_str : string)
      (temperature setpoint : Q) (append_ok oversize : bool) : Instrument :=
    let write :=
      if append_ok then
        let rows := log_rows self ++ [(current_second_str, temperature, setpoint)] in
        let counter := S (log_write_counter self) in
        if Nat.leb log_write_interval counter
        then set_log self (_trim_log_file rows oversize) 0 (Some current_second_str)
        else set_log self rows counter (Some current_second_str)
      else self in
    match _last_logged_second self with
    | Some s => if String.eqb s current_second_str then self else write
    | None => write
    end.

  (** [update_state()].  The final assignment of [self._state] is not
      modelled. *)
Definition update_state (self : Instrument) (e : env) : outcome Instrument :=
    let c := iface self in
    if negb (is_connected c) then Returned self else
    match device c with
    | None => Raised self
    | Some d =>
        let (current_temp, d') := get_temperature d (read_time e) (noise_time e) in
        let current_time := now e in
        let self1 :=
          {| iface := with_device c (Some d') (is_connected c);
             start_time := start_time self;
             time_history := deque_append HISTORY_MAXLEN (time_history self) current_time;
             temp_history := deque_append HISTORY_MAXLEN (temp_history self) current_temp;
             setpoint_history :=
               deque_append HISTORY_MAXLEN (setpoint_history self) (target_setpoint c);
             log_rows := log_rows self;
             log_write_counter := log_write_counter self;
             _last_logged_second := _last_logged_second self |} in
        let self2 := _log_data self1 (now_second e) current_temp (target_setpoint c)
                       (append_ok e) (log_oversize e) in
        let c2 := iface self2 in
        let stability_threshold := 1#2 in
        if Qle_bool (py_abs (current_temp - target_setpoint c2)) stability_threshold then
          let start :=
            match stabilization_start_time c2 with
            | None => current_time
            | Some s => s
            end in
          let duration := current_time - start in
          let c3 := with_stability c2 (Some start) duration (is_stable c2) in
          if negb (is_stable c3) && Qle_bool (dwell_time c3) duration then
            let c4 := with_stability c3 (Some start) duration true in
            if auto_mode c4
            then outcome_map (set_iface self2) (_go_to_next_setpoint c4)
            else Returned (set_iface self2 c4)
          else Returned (set_iface self2 c3)
        else Returned (set_iface self2 (with_stability c2 None 0 false))
    end.

  (** The lookup of the next schedule entry in [update_display]: a
      [ZeroDivisionError] or [IndexError] when it fails. *)
Definition next_setpoint_lookup (c : InstrumentInterface) : option Q :=
    match nth_error (schedule c)
            (Nat.modulo (S (schedule_index c)) (List.length (schedule c))) with
    | Some item => Some (setpoint item)
    | None => None
    end.

  (** [on_next_setpoint(n_clicks)]; [n_clicks] is [None] or a count. *)
Definition on_next_setpoint (self : Instrument) (n_clicks : option nat)
      : outcome Instrument :=
    let truthy := match n_clicks with Some (S _) => true | _ => false end in
    if truthy && negb (auto_mode (iface self))
    then outcome_map (set_iface self) (_go_to_next_setpoint (iface self))
    else Returned self.

  (** [on_auto_mode_toggle(is_on)]; the returned switch value and label are
      not modelled. *)
Definition on_auto_mode_toggle (self : Instrument) (is_on : bool) : outcome Instrument :=
    let self1 := set_iface self (with_auto_mode (iface self) is_on) in
    if auto_mode (iface self1) && is_stable (iface self1)
    then outcome_map (set_iface self1) (_go_to_next_setpoint (iface self1))
    else Returned self1.

  (** The callbacks and methods the Dash app invokes. *)
Inductive ui_event :=
  | UpdateDisplay (e : env)
  | NextClick (n_clicks : option nat)
  | AutoToggle (is_on : bool)
  | Connect (t_device t_start : Q)
  | Disconnect.

  (** [update_display(n)] as far as the instrument's attributes go:
      [update_state()], then the next-setpoint lookup. *)
Definition update_display (self : Instrument) (e : env) : outcome Instrument :=
    match update_state self e with
    | Returned s =>
        match next_setpoint_lookup (iface s) with
        | Some _ => Returned s
        | None => Raised s
        end
    | Raised s => Raised s
    end.

Definition ui_step (self : Instrument) (ev : ui_event) : outcome Instrument :=
    match ev with
    | UpdateDisplay e => update_display self e
    | NextClick n => on_next_setpoint self n
    | AutoToggle b => on_auto_mode_toggle self b
    | Connect t1 t2 => Returned (fst (connect self t1 t2))
    | Disconnect => Returned (fst (disconnect self))
    end.

  (** A session: Dash reports an exception raised by a callback and keeps
      the object with the attributes it had then. *)
Fixpoint run_ui (self : Instrument) (evs : list ui_event) : Instrument :=
    match evs with
    | [] => self
    | ev :: evs' => run_ui (outcome_self (ui_step self ev)) evs'
    end.

  (** *** [_parse_time] *)

  (** [str.isspace()] on the code points 0-255 (an [ascii] is read as a
      Latin-1 code point). *)
Definition py_isspace (ch : ascii) : bool :=
    let n := nat_of_ascii ch in
    (Nat.leb 9 n && Nat.leb n 13) || (Nat.leb 28 n && Nat.leb n 32) ||
    Nat.eqb n 133 || Nat.eqb n 160.

Fixpoint lstrip_py (l : list ascii) : list ascii :=
    match l with
    | ch :: l' => if py_isspace ch then lstrip_py l' else l
    | [] => []
    end.

Definition strip_py (l : list ascii) : list ascii := rev (lstrip_py (rev (lstrip_py l))).

  (** The digits of a base-10 literal, single underscores allowed between
      digits: its value and number of digits. *)
Fixpoint int_digits (l : list ascii) (acc : Z) (ndigits : nat) (after_digit : bool)
      : option (Z * nat) :=
    match l with
    | [] => if after_digit then Some (acc, ndigits) else None
    | ch :: l' =>
        let n := nat_of_ascii ch in
        if Nat.leb 48 n && Nat.leb n 57 then
          int_digits l' (acc * 10 + Z.of_nat (n - 48))%Z (S ndigits) true
        else if Nat.eqb n 95 && after_digit then int_digits l' acc ndigits false
        else None
    end.

  (** Python's [int(s)] on a string: surrounding whitespace, an optional
      sign, then digits; more than 4300 digits is a [ValueError] under the
      default [sys.get_int_max_str_digits()] of CPython 3.11 and later.
      [None] is [ValueError]. *)
Definition py_int (s : list ascii) : option Z :=
    let l := strip_py s in
    let '(neg, body) :=
      match l with
      | ch :: l' =>
          if Nat.eqb (nat_of_ascii ch) 45 then (true, l')
          else if Nat.eqb (nat_of_ascii ch) 43 then (false, l')
          else (false, l)
      | [] => (false, l)
      end in
    match int_digits body 0%Z 0 false with
    | Some (z, ndigits) =>
        if Nat.ltb 4300 ndigits then None else Some (if neg then (- z)%Z else z)
    | None => None
    end.

Fixpoint split_colon_from (l cur : list ascii) : list (list ascii) :=
    match l with
    | [] => [rev cur]
    | ch :: l' =>
        if Nat.eqb (nat_of_ascii ch) 58 then rev cur :: split_colon_from l' []
        else split_colon_from l' (ch :: cur)
    end.

  (** [s.split(':')] *)
Definition split_colon (s : string) : list (list ascii) :=
    split_colon_from (list_ascii_of_string s) [].

  (** The [try] block of [_parse_time]: [h, m = map(int, ...)] and the
      range test; [None] when it falls through (a [ValueError] or a value
      out of range). *)
Definition parse_hm (time_str : string) : option (Z * Z) :=
    match split_colon time_str with
    | [hs; ms] =>
        match py_int hs, py_int ms with
        | Some h, Some m =>
            if (0 <=? h)%Z && (h <=? 23)%Z && (0 <=? m)%Z && (m <=? 59)%Z
            then Some (h, m) else None
        | _, _ => None
        end
    | _ => None
    end.

  (** [_parse_time(time_str, default_hour, default_minute)]; [None] is a
      missing value. *)
Definition _parse_time (time_str : option string) (default_hour default_minute : Z)
      : Z * Z :=
    match time_str with
    | None => (default_hour, default_minute)
    | Some s =>
        if String.eqb s ""%string then (default_hour, default_minute)
        else match parse_hm s with
             | Some hm => hm
             | None => (default_hour, default_minute)
             end
    end.

  (** A two-digit zero-padded rendering ([f"{n:02d}"] for [n < 100]). *)
Definition fmt_02d (n : nat) : string :=
    String (ascii_of_nat (48 + Nat.div n 10)) (String (ascii_of_nat (48 + Nat.modulo n 10)) EmptyString).

  (** *** The y-axis range of [update_display] (lines 277-285) *)

  (** [min(xs)] and [max(xs)] on a non-empty list: the first item, replaced
      by each later item that is smaller (larger). *)
Definition py_min_list (x : Q) (xs : list Q) : Q :=
    fold_left (fun acc y => if Qltb y acc then y else acc) xs x.

Definition py_max_list (x : Q) (xs : list Q) : Q :=
    fold_left (fun acc y => if Qltb acc y then y else acc) xs x.

Definition yaxis_range (temp_history setpoint_schedule : list Q) : option (Q * Q) :=
    match temp_history, setpoint_schedule with
    | t :: ts, s :: ss =>
        let min_val := py_min (py_min_list t ts) (py_min_list s ss) in
        let max_val := py_max (py_max_list t ts) (py_max_list s ss) in
        let y_padding :=
          if negb (Qeq_bool min_val max_val) then
            let data_range := max_val - min_val in
            (data_range / (9#10) - data_range) / 2
          else 5 in
        Some (min_val - y_padding, max_val + y_padding)
    | _, _ => None
    end.

End PidCoolerInstrument.

(** ** Concrete scenarios *)
Module Scenarios.
Import TemperatureController.

Definition placeholder : TemperatureController :=
    mkController [] [] (CryoSystem.init 0) 0 0 0 0 0 None false false false.

  (** [TemperatureController()] with the default schedule. *)
Definition default_controller : TemperatureController :=
    match __init__ decimal_float None with Some c => c | None => placeholder end.

  (** An update request, then two ticks ten seconds apart, the first with
      sensor noise [0.1]. *)
Definition advance_events : list event :=
    [RequestUpdate; Tick 1000 (1#10); Tick 1010 0].

  (** The first tick of the default controller. *)
Definition first_tick : TemperatureController * bool :=
    match update default_controller 1000 0 with
    | Some r => r
    | None => (placeholder, false)
    end.

  (** A controller whose first target (290 K) is away from the start
      temperature (300 K). *)
Definition far_controller : TemperatureController :=
    match init_with [290] [10] with Some c => c | None => placeholder end.

  (** A controller with a zero dwell time. *)
Definition zero_dwell_controller : TemperatureController :=
    match init_with [300] [0] with Some c => c | None => placeholder end.

  (** Two noiseless ticks ten seconds apart. *)
Definition stabilizing_events : list event := [Tick 1000 0; Tick 1010 0].

Definition stabilizing_trace : list (TemperatureController * TemperatureController * bool) :=
    match trace default_controller stabilizing_events with
    | Some tr => tr
    | None => []
    end.

Definition second_step : TemperatureController * TemperatureController * bool :=
    nth 1 stabilizing_trace (placeholder, placeholder, false).

  (** A schedule file whose two rows disagree in length. *)
Definition mismatched_file : csv_file :=
    Rows [["setpoints"; "1"; "2"; "3"]; ["stable_times"; "5"; "5"]]%string.

  (** A connected simulated cooler on the last of three schedule entries. *)
Definition cooler_on_last_entry : PidCoolerSimulator.InstrumentInterface :=
    {| PidCoolerSimulator.schedule :=
         [PidCoolerSimulator.mkItem 280 10; PidCoolerSimulator.mkItem 260 10;
          PidCoolerSimulator.mkItem 240 5];
       PidCoolerSimulator.device :=
         Some (PidCoolerSimulator.mkSimulator 241 240 0 0 0);
       PidCoolerSimulator.is_connected := true;
       PidCoolerSimulator.schedule_index := 2;
       PidCoolerSimulator.target_setpoint := 240;
       PidCoolerSimulator.dwell_time := 5;
       PidCoolerSimulator.is_stable := true;
       PidCoolerSimulator.stabilization_start_time := Some 1000;
       PidCoolerSimulator.stable_duration := 6;
       PidCoolerSimulator.auto_mode := true |}.

  (** Two noiseless ticks ten seconds apart on the zero-dwell controller. *)
Definition zero_dwell_ticks : list (Q * Q) := [(1000, 0); (1010, 0)].

Definition zero_dwell_posts : list (Q * TemperatureController) :=
    match run_ticks zero_dwell_controller zero_dwell_ticks with
    | Some posts => posts
    | None => []
    end.
  (** The default controller once stable (after [stabilizing_events]), and
      after one more tick at 1020 s with a sensor noise sample of 1 K. *)
Definition stable_controller : TemperatureController :=
    match run default_controller stabilizing_events with
    | Some c => c
    | None => placeholder
    end.

Definition lost_controller : TemperatureController :=
    match update stable_controller 1020 1 with
    | Some (c, _) => c
    | None => placeholder
    end.

  (** The default controller with an update request pending, and three
      ticks ten seconds apart, the first with sensor noise [0.1]. *)
Definition requested_controller : TemperatureController :=
    match run default_controller [RequestUpdate] with
    | Some c => c
    | None => placeholder
    end.

Definition requested_ticks : list (Q * Q) := [(1000, 1#10); (1010, 0); (1020, 0)].

Definition requested_posts : list (Q * TemperatureController) :=
    match run_ticks requested_controller requested_ticks with
    | Some posts => posts
    | None => []
    end.
End Scenarios.

(** * Proofs *)

(** ** Arithmetic helpers *)

Lemma Qltb_true (x y : Q) : Qltb x y = true <-> x < y.
Proof.
  unfold Qltb. rewrite negb_true_iff. split; intro H.
  - apply Qnot_le_lt. intro H'. apply Qle_bool_iff in H'. congruence.
  - destruct (Qle_bool y x) eqn:E; [|reflexivity].
    apply Qle_bool_iff in E. exfalso. exact (Qle_not_lt _ _ E H).
Qed.

Lemma Qltb_false (x y : Q) : Qltb x y = false <-> y <= x.
Proof.
  unfold Qltb. rewrite negb_false_iff. apply Qle_bool_iff.
Qed.

Lemma Qle_bool_false (x y : Q) : Qle_bool x y = false <-> y < x.
Proof.
  split; intro H.
  - apply Qnot_le_lt. intro H'. apply Qle_bool_iff in H'. congruence.
  - destruct (Qle_bool x y) eqn:E; [|reflexivity].
    apply Qle_bool_iff in E. exfalso. exact (Qle_not_lt _ _ E H).
Qed.

Lemma Qdiv_one (x : Q) : x / 1 == x.
Proof. unfold Qdiv. change (/ 1) with 1. apply Qmult_1_r. Qed.

(** Python's [max(0, min(100, x))] lies in [[0, 100]] and is the clamp. *)
Lemma py_clamp_spec (x : Q) :
  0 <= py_max 0 (py_min 100 x) /\ py_max 0 (py_min 100 x) <= 100 /\
  py_max 0 (py_min 100 x) == clamp_0_100 x.
Proof.
  unfold py_max, py_min, clamp_0_100.
  destruct (Qltb x 100) eqn:E1.
  - apply Qltb_true in E1.
    rewrite (Q.min_r 100 x) by (apply Qlt_le_weak; exact E1).
    destruct (Qltb 0 x) eqn:E2.
    + apply Qltb_true in E2.
      rewrite (Q.max_r 0 x) by (apply Qlt_le_weak; exact E2).
      refine (conj _ (conj _ _)); [apply Qlt_le_weak; exact E2 | apply Qlt_le_weak; exact E1 | reflexivity].
    + apply Qltb_false in E2.
      rewrite (Q.max_l 0 x) by exact E2.
      refine (conj _ (conj _ _)); [apply Qle_refl | discriminate | reflexivity].
  - apply Qltb_false in E1.
    rewrite (Q.min_l 100 x) by exact E1.
    simpl. refine (conj _ (conj _ _)); [discriminate | apply Qle_refl | reflexivity].
Qed.

(** ** The plant step *)
Module PlantFacts.
Import CryoSystem.

  (** The integral accumulates only when the previous command was strictly
      inside [(0, 100)]. *)
Lemma integral_step (cs : CryoSystem) (target noise : Q) :
    let cs' := snd (update_temperature cs target noise) in
    (0 < cooling_power cs /\ cooling_power cs < 100 ->
       integral_sum cs' = integral_sum cs + (target - filtered_temp cs') * 1) /\
    (~ (0 < cooling_power cs /\ cooling_power cs < 100) ->
       integral_sum cs' = integral_sum cs).
  Proof.
    simpl. destruct (Qltb 0 (cooling_power cs)) eqn:E1;
      destruct (Qltb (cooling_power cs) 100) eqn:E2; simpl;
      try apply Qltb_true in E1; try apply Qltb_true in E2;
      try apply Qltb_false in E1; try apply Qltb_false in E2;
      split; intro H; try reflexivity; exfalso.
    - apply H; split; assumption.
    - destruct H as [_ H]. exact (Qle_not_lt _ _ E2 H).
    - destruct H as [H _]. exact (Qle_not_lt _ _ E1 H).
    - destruct H as [H _]. exact (Qle_not_lt _ _ E1 H).
  Qed.

  (** The command of a step is the clamped PID law on the new filtered
      temperature and the updated integral. *)
Lemma output_step (cs : CryoSystem) (target noise : Q) :
    let cs' := snd (update_temperature cs target noise) in
    0 <= cooling_power cs' /\ cooling_power cs' <= 100 /\
    cooling_power cs' ==
      clamp_0_100 (kp cs * (target - filtered_temp cs') + ki cs * integral_sum cs'
                   - kd cs * (filtered_temp cs' - last_filtered_temp cs)).
  Proof.
    simpl.
    match goal with |- context [py_max 0 (py_min 100 ?x)] =>
      destruct (py_clamp_spec x) as [H0 [H1 H2]] end.
    repeat split; try assumption.
    rewrite H2. unfold clamp_0_100.
    apply Q.max_compat; [reflexivity|]. apply Q.min_compat; [reflexivity|].
    rewrite Qdiv_one. reflexivity.
  Qed.

End PlantFacts.

(** ** The scheduler step *)
Module ControllerFacts.
Import TemperatureController.

Lemma advance_spec (c c' : TemperatureController) :
    advance c = Some c' ->
    stabilization_start_time c' = None /\ is_stable c' = false /\
    schedule_index c' = S (schedule_index c) /\ update_requested c' = false /\
    integral_sum c' = 0 /\ cryo_system c' = cryo_system c /\
    temperature c' = temperature c.
  Proof.
    unfold advance.
    destruct (nth_error (setpoint_schedule c) (S (schedule_index c)));
      destruct (nth_error (setpoint_stable_times c) (S (schedule_index c)));
      intro H; try discriminate H.
    injection H as <-. repeat split.
  Qed.

  (** Case analysis of [_update_target_setpoint]: every branch is named by
      the boolean tests and option values it took. *)
Ltac uts_split H :=
    unfold _update_target_setpoint in H;
    repeat match type of H with
      | context [if ?b then _ else _] =>
          let E := fresh "E" in destruct b eqn:E; simpl in H
      | context [match ?o with Some _ => _ | None => _ end] =>
          let E := fresh "E" in destruct o eqn:E; simpl in H
      end;
    try discriminate H; first [injection H as <- <- | injection H as <-].

  (** A tick either leaves the timer cleared and [is_stable] false, or leaves
      the temperature inside the band around the (unchanged) target. *)
Lemma uts_cases (c c' : TemperatureController) (now thr : Q) (f : bool) :
    _update_target_setpoint c now thr = Some (c', f) ->
    (stabilization_start_time c' = None /\ is_stable c' = false) \/
    _is_temperature_stable c' (target_setpoint c') thr = true.
  Proof.
    intro H. uts_split H; simpl in *;
      try (right; unfold _is_temperature_stable in *; simpl; assumption);
      try (left; split; reflexivity);
      match goal with E : advance _ = Some _ |- _ =>
        left; apply advance_spec in E; tauto end.
  Qed.

  (** Reachable controllers never hold [is_stable] with a cleared timer. *)
Lemma uts_timer_inv (c c' : TemperatureController) (now thr : Q) (f : bool) :
    (stabilization_start_time c = None -> is_stable c = false) ->
    _update_target_setpoint c now thr = Some (c', f) ->
    stabilization_start_time c' = None -> is_stable c' = false.
  Proof.
    intros Hinv H. uts_split H; simpl in *; intro Hs; try discriminate Hs;
      try reflexivity;
      try (match goal with E : advance _ = Some _ |- _ =>
             apply advance_spec in E; tauto end);
      try congruence; auto.
  Qed.

  (** [_on_stabilized] is only called when [is_stable] was false, on an
      in-band tick with a running timer; the tick leaves [is_stable] true
      unless it also advanced the schedule. *)
Lemma uts_fired (c c' : TemperatureController) (now thr : Q) :
    _update_target_setpoint c now thr = Some (c', true) ->
    is_stable c = false /\
    (is_stable c' = true \/
     (schedule_index c' = S (schedule_index c) /\ is_stable c' = false)) /\
    (exists s, stabilization_start_time c = Some s) /\
    _is_temperature_stable c (target_setpoint c) thr = true.
  Proof.
    intro H. uts_split H; simpl in *;
      repeat match goal with E : negb _ = true |- _ => apply negb_true_iff in E end;
      refine (conj _ (conj _ (conj _ _)));
      try assumption; try reflexivity; try (eexists; reflexivity);
      try (left; reflexivity).
    match goal with E : advance _ = Some _ |- _ =>
      apply advance_spec in E; simpl in E; right; tauto end.
  Qed.

  (** Without a pending update request the target never changes, and the
      timer and [is_stable] evolve as follows. *)
Lemma uts_no_request (c c' : TemperatureController) (now thr : Q) (f : bool) :
    update_requested c = false ->
    _update_target_setpoint c now thr = Some (c', f) ->
    target_setpoint c' = target_setpoint c /\
    current_stable_time c' = current_stable_time c /\
    update_requested c' = false /\ temperature c' = temperature c /\
    (if _is_temperature_stable c (target_setpoint c) thr then
       match stabilization_start_time c with
       | None => stabilization_start_time c' = Some now /\ is_stable c' = is_stable c
       | Some s => stabilization_start_time c' = Some s /\
                   is_stable c' = (is_stable c || Qle_bool (current_stable_time c) (now - s))
       end
     else stabilization_start_time c' = None /\ is_stable c' = false).
  Proof.
    intros Hr H. uts_split H; simpl in *; try discriminate Hr;
      try (match goal with E : update_requested _ = true |- _ =>
             rewrite Hr in E; discriminate E end);
      refine (conj eq_refl (conj eq_refl (conj _ (conj eq_refl (conj _ _)))));
      try assumption; try reflexivity;
      destruct (is_stable c); simpl in *; try reflexivity; discriminate.
  Qed.
  (** The stability invariant of the controller. *)
Definition timer_inv (c : TemperatureController) : Prop :=
    ((1#2) < py_abs (temperature c - target_setpoint c) ->
       stabilization_start_time c = None /\ is_stable c = false) /\
    (stabilization_start_time c = None -> is_stable c = false).

Lemma in_band_false (c : TemperatureController) :
    (1#2) < py_abs (temperature c - target_setpoint c) -> in_band c = false.
  Proof. intro H. apply Qle_bool_false. exact H. Qed.

Lemma update_uts (c c' : TemperatureController) (t n : Q) (f : bool) :
    update c t n = Some (c', f) ->
    exists cs temp, _update_target_setpoint (set_plant c cs temp) t (1#2) = Some (c', f).
  Proof.
    unfold update. destruct (CryoSystem.update_temperature _ _ _) as [temp cs].
    intro H. exists cs, temp. exact H.
  Qed.

Lemma update_timer_inv (c c' : TemperatureController) (t n : Q) (f : bool) :
    timer_inv c -> update c t n = Some (c', f) -> timer_inv c'.
  Proof.
    intros [_ Hinv] H. apply update_uts in H. destruct H as [cs [temp H]].
    split.
    - intro Hout. destruct (uts_cases _ _ _ _ _ H) as [Hl | Hr]; [exact Hl|].
      apply in_band_false in Hout. unfold in_band in Hout. congruence.
    - exact (uts_timer_inv (set_plant c cs temp) c' t (1#2) f Hinv H).
  Qed.

Lemma step_timer_inv (c c' : TemperatureController) (e : event) (f : bool) :
    timer_inv c -> step c e = Some (c', f) -> timer_inv c'.
  Proof.
    intros Hinv H. destruct e as [t n | | b]; simpl in H.
    - exact (update_timer_inv _ _ _ _ _ Hinv H).
    - injection H as <- _. unfold request_update.
      destruct (is_debug_mode c); [exact Hinv | exact Hinv].
    - injection H as <- _. exact Hinv.
  Qed.

Lemma run_timer_inv (es : list event) (c c' : TemperatureController) :
    timer_inv c -> run c es = Some c' -> timer_inv c'.
  Proof.
    revert c. induction es as [|e es IH]; intros c Hinv H; simpl in H.
    - injection H as <-. exact Hinv.
    - destruct (step c e) as [[c1 f]|] eqn:E; [|discriminate H].
      exact (IH c1 (step_timer_inv _ _ _ _ Hinv E) H).
  Qed.

Lemma reachable_timer_inv (c : TemperatureController) :
    reachable c -> timer_inv c.
  Proof.
    intros [sp [st [c0 [es [Hinit Hrun]]]]].
    apply (run_timer_inv es c0); [|exact Hrun].
    unfold init_with in Hinit.
    destruct (nth_error sp 0); destruct (nth_error st 0); try discriminate Hinit.
    injection Hinit as <-. split; intros; split; reflexivity.
  Qed.
  (** [_update_target_setpoint] reads nothing of the plant object: the
      filtered temperature does not enter the stability decision. *)
Lemma uts_ignores_plant (c : TemperatureController) (cs1 cs2 : CryoSystem.CryoSystem)
      (temp now thr : Q) :
    option_map (fun p => (scheduler_view (fst p), snd p))
      (_update_target_setpoint (set_plant c cs1 temp) now thr) =
    option_map (fun p => (scheduler_view (fst p), snd p))
      (_update_target_setpoint (set_plant c cs2 temp) now thr).
  Proof.
    unfold _update_target_setpoint, _is_temperature_stable, advance, set_timer,
      set_plant; cbn.
    destruct (is_stable c); destruct (setpoint_schedule c);
      destruct (setpoint_stable_times c); cbn;
    repeat match goal with
      | |- context [if ?b then _ else _] => destruct b; cbn
      | |- context [nth_error ?l ?i] => destruct (nth_error l i); cbn
      | |- context [match ?o with Some _ => _ | None => _ end] => destruct o; cbn
      end; reflexivity.
  Qed.

Lemma step_fired (c c' : TemperatureController) (e : event) :
    step c e = Some (c', true) ->
    is_stable c = false /\
    (is_stable c' = true \/
     (schedule_index c' = S (schedule_index c) /\ is_stable c' = false)).
  Proof.
    destruct e as [t n | | b]; simpl; intro H; try discriminate H.
    apply update_uts in H. destruct H as [cs [temp H]].
    apply uts_fired in H. simpl in H. tauto.
  Qed.

Lemma trace_step (es : list event) (c : TemperatureController) tr j p q f :
    trace c es = Some tr -> nth_error tr j = Some (p, q, f) ->
    exists e, step p e = Some (q, f).
  Proof.
    revert c tr j. induction es as [|e es IH]; intros c tr j Htr Hj; simpl in Htr.
    - injection Htr as <-. destruct j; discriminate Hj.
    - destruct (step c e) as [[c1 f1]|] eqn:E; [|discriminate Htr].
      destruct (trace c1 es) as [tr'|] eqn:E'; simpl in Htr; [|discriminate Htr].
      injection Htr as <-. destruct j as [|j]; simpl in Hj.
      + injection Hj as <- <- <-. exists e. exact E.
      + exact (IH c1 tr' j E' Hj).
  Qed.

Lemma trace_head (es : list event) (c : TemperatureController) p q f tr :
    trace c es = Some ((p, q, f) :: tr) -> p = c.
  Proof.
    destruct es as [|e es]; simpl; intro H; [discriminate H|].
    destruct (step c e) as [[c1 f1]|]; [|discriminate H].
    destruct (trace c1 es); simpl in H; [|discriminate H].
    injection H as <- _ _ _. reflexivity.
  Qed.

  (** Consecutive steps of a trace share their state. *)
Lemma trace_chain (es : list event) (c : TemperatureController) tr k p q f :
    trace c es = Some tr -> nth_error tr (S k) = Some (p, q, f) ->
    exists p0 f0, nth_error tr k = Some (p0, p, f0).
  Proof.
    revert c tr k. induction es as [|e es IH]; intros c tr k Htr Hk; simpl in Htr.
    - injection Htr as <-. discriminate Hk.
    - destruct (step c e) as [[c1 f1]|] eqn:E; [|discriminate Htr].
      destruct (trace c1 es) as [tr'|] eqn:E'; simpl in Htr; [|discriminate Htr].
      injection Htr as <-. destruct k as [|k]; simpl in Hk.
      + destruct tr' as [|[[p' q'] f'] tr'']; [discriminate Hk|].
        simpl in Hk. injection Hk as -> _ _.
        rewrite (trace_head es c1 p q' f' tr'' E'). exists c, f1. reflexivity.
      + exact (IH c1 tr' k E' Hk).
  Qed.
  (** The scheduler never touches the plant object. *)
Lemma uts_keeps_plant (c c' : TemperatureController) (now thr : Q) (f : bool) :
    _update_target_setpoint c now thr = Some (c', f) -> cryo_system c' = cryo_system c.
  Proof.
    intro H. uts_split H; simpl; try reflexivity;
      match goal with E : advance _ = Some _ |- _ =>
        apply advance_spec in E; simpl in E; tauto end.
  Qed.

  (** The tail of a list whose last element is out of the band. *)
Definition last_out (posts : list (Q * TemperatureController)) : Prop :=
    forall pre q, posts = pre ++ [q] -> in_band (snd q) = false.

  (** What a run of ticks without update requests, started with a cleared
      timer, maintains about its recorded states and its final state [cf]:
      either the timer is cleared and the last tick was out of the band (or
      no tick ran), or the run ends in a maximal in-band stretch [p :: rest]
      whose first tick started the timer. *)
Definition run_inv (c : TemperatureController) (posts : list (Q * TemperatureController))
      (cf : TemperatureController) : Prop :=
    target_setpoint cf = target_setpoint c /\
    current_stable_time cf = current_stable_time c /\
    update_requested cf = false /\
    (forall q, In q posts -> target_setpoint (snd q) = target_setpoint c) /\
    (forall q, In q posts -> in_band (snd q) = false ->
       stabilization_start_time (snd q) = None /\ is_stable (snd q) = false) /\
    ((stabilization_start_time cf = None /\ is_stable cf = false /\ last_out posts) \/
     (exists pre p rest,
        posts = pre ++ p :: rest /\
        Forall (fun q => in_band (snd q) = true) (p :: rest) /\
        last_out pre /\
        stabilization_start_time cf = Some (fst p) /\
        is_stable cf =
          existsb (fun q => Qle_bool (current_stable_time c) (fst q - fst p)) rest)).

Lemma update_no_request (c c' : TemperatureController) (t n : Q) (f : bool) :
    update_requested c = false -> update c t n = Some (c', f) ->
    target_setpoint c' = target_setpoint c /\
    current_stable_time c' = current_stable_time c /\
    update_requested c' = false /\
    (if in_band c' then
       match stabilization_start_time c with
       | None => stabilization_start_time c' = Some t /\ is_stable c' = is_stable c
       | Some s => stabilization_start_time c' = Some s /\
                   is_stable c' = (is_stable c || Qle_bool (current_stable_time c) (t - s))
       end
     else stabilization_start_time c' = None /\ is_stable c' = false).
  Proof.
    intros Hr H. apply update_uts in H. destruct H as [cs [temp H]].
    destruct (uts_no_request (set_plant c cs temp) c' t (1#2) f Hr H)
      as [Ht [Hd [Hq [Htemp Hcase]]]].
    assert (Hband : in_band c' =
              _is_temperature_stable (set_plant c cs temp)
                (target_setpoint (set_plant c cs temp)) (1#2)).
    { unfold in_band, _is_temperature_stable. rewrite Ht, Htemp. reflexivity. }
    split; [exact Ht|]. split; [exact Hd|]. split; [exact Hq|].
    rewrite Hband. exact Hcase.
  Qed.

Lemma final_state_snoc (c c' : TemperatureController) (t : Q)
      (posts : list (Q * TemperatureController)) :
    final_state c (posts ++ [(t, c')]) = c'.
  Proof.
    revert c. induction posts as [|[t0 c0] posts IH]; intro c; simpl.
    - reflexivity.
    - apply IH.
  Qed.

Lemma run_ticks_snoc (c : TemperatureController) (ticks : list (Q * Q)) (t n : Q) :
    run_ticks c (ticks ++ [(t, n)]) =
    match run_ticks c ticks with
    | Some posts =>
        match update (final_state c posts) t n with
        | Some (c', _) => Some (posts ++ [(t, c')])
        | None => None
        end
    | None => None
    end.
  Proof.
    revert c. induction ticks as [|[t0 n0] ticks IH]; intro c; simpl.
    - destruct (update c t n) as [[c' f]|]; reflexivity.
    - destruct (update c t0 n0) as [[c1 f1]|]; [|reflexivity].
      rewrite IH. destruct (run_ticks c1 ticks) as [posts|]; simpl; [|reflexivity].
      destruct (update (final_state c1 posts) t n) as [[c' f']|]; reflexivity.
  Qed.

  (** A list splits in at most one way into a prefix whose last element
      fails [P] and a non-empty suffix whose elements all satisfy [P]. *)
Lemma split_unique {A : Type} (P : A -> bool) (pre rest pre' rest' : list A) (p p' : A) :
    pre ++ p :: rest = pre' ++ p' :: rest' ->
    Forall (fun q => P q = true) (p :: rest) ->
    Forall (fun q => P q = true) (p' :: rest') ->
    (forall pre0 q, pre = pre0 ++ [q] -> P q = false) ->
    (forall pre0 q, pre' = pre0 ++ [q] -> P q = false) ->
    pre = pre' /\ p = p' /\ rest = rest'.
  Proof.
    intros H F F' L L'. apply app_eq_app in H.
    destruct H as [l [[H1 H2] | [H1 H2]]].
    - induction l as [|z l _] using rev_ind.
      + rewrite app_nil_r in H1. simpl in H2. injection H2 as -> ->. auto.
      + rewrite app_assoc in H1. specialize (L _ _ H1).
        rewrite Forall_forall in F'.
        assert (Hz : In z (p' :: rest')).
        { rewrite H2. apply in_or_app. left. apply in_or_app. right. left. reflexivity. }
        rewrite (F' z Hz) in L. discriminate L.
    - induction l as [|z l _] using rev_ind.
      + rewrite app_nil_r in H1. simpl in H2. injection H2 as -> ->. auto.
      + rewrite app_assoc in H1. specialize (L' _ _ H1).
        rewrite Forall_forall in F.
        assert (Hz : In z (p :: rest)).
        { rewrite H2. apply in_or_app. left. apply in_or_app. right. left. reflexivity. }
        rewrite (F z Hz) in L'. discriminate L'.
  Qed.

  (** A run whose last tick is out of the band does not end in an in-band
      stretch. *)
Lemma last_out_in_band_tail (posts pre rest : list (Q * TemperatureController))
      (p : Q * TemperatureController) :
    posts = pre ++ p :: rest ->
    Forall (fun q => in_band (snd q) = true) (p :: rest) ->
    last_out posts -> False.
  Proof.
    intros Hp Hf Hlo.
    assert (Hne : p :: rest <> []) by discriminate.
    destruct (exists_last Hne) as [l0 [z Hz]].
    assert (Hl : posts = (pre ++ l0) ++ [z]) by (rewrite Hp, Hz, app_assoc; reflexivity).
    specialize (Hlo _ _ Hl). rewrite Forall_forall in Hf.
    assert (Hin : In z (p :: rest)) by (rewrite Hz; apply in_or_app; right; left; reflexivity).
    rewrite (Hf z Hin) in Hlo. discriminate Hlo.
  Qed.

Lemma run_inv_holds (c : TemperatureController) (ticks : list (Q * Q))
      (posts : list (Q * TemperatureController)) :
    stabilization_start_time c = None -> is_stable c = false ->
    update_requested c = false -> run_ticks c ticks = Some posts ->
    run_inv c posts (final_state c posts).
  Proof.
    intros Hs Hst Hr. revert posts.
    induction ticks as [|[t n] ticks IH] using rev_ind; intros posts Hrun.
    - simpl in Hrun. injection Hrun as <-. simpl.
      refine (conj eq_refl (conj eq_refl (conj Hr (conj _ (conj _ _))))).
      + intros q [].
      + intros q [].
      + left. refine (conj Hs (conj Hst _)).
        intros pre q Hq. exfalso. exact (app_cons_not_nil _ _ _ Hq).
    - rewrite run_ticks_snoc in Hrun.
      destruct (run_ticks c ticks) as [posts0|]; [|discriminate Hrun].
      specialize (IH posts0 eq_refl).
      destruct (update (final_state c posts0) t n) as [[c' f]|] eqn:U; [|discriminate Hrun].
      injection Hrun as <-. rewrite final_state_snoc.
      destruct IH as [Ht [Hd [Hq [Hall_t [Hall_out Hcase]]]]].
      destruct (update_no_request _ _ _ _ _ Hq U) as [Ht' [Hd' [Hq' Hc']]].
      split; [rewrite Ht'; exact Ht|]. split; [rewrite Hd'; exact Hd|].
      split; [exact Hq'|]. split.
      { intros q Hin. apply in_app_or in Hin. destruct Hin as [Hin | [<- | []]].
        - exact (Hall_t q Hin).
        - simpl. rewrite Ht'. exact Ht. }
      split.
      { intros q Hin Hout. apply in_app_or in Hin. destruct Hin as [Hin | [<- | []]].
        - exact (Hall_out q Hin Hout).
        - simpl in Hout |- *. rewrite Hout in Hc'. exact Hc'. }
      destruct (in_band c') eqn:B.
      + right.
        destruct Hcase as [[Hs0 [Hst0 Hlo]] | [pre [p [rest [Hp [Hf [Hlo [Hs0 Hst0]]]]]]]];
          rewrite Hs0 in Hc'; destruct Hc' as [Hs' Hst'].
        * exists posts0, (t, c'), []. split; [reflexivity|]. split.
          { constructor; [exact B | constructor]. }
          split; [exact Hlo|]. split; [exact Hs'|].
          rewrite Hst', Hst0. reflexivity.
        * exists pre, p, (rest ++ [(t, c')]). split.
          { rewrite Hp, <- app_assoc. reflexivity. }
          split.
          { change (Forall (fun q => in_band (snd q) = true) ((p :: rest) ++ [(t, c')])).
            apply Forall_app. split; [exact Hf | constructor; [exact B | constructor]]. }
          split; [exact Hlo|]. split; [exact Hs'|].
          rewrite Hst', Hst0, existsb_app, Hd. simpl. rewrite orb_false_r. reflexivity.
      + left. destruct Hc' as [Hs' Hst']. refine (conj Hs' (conj Hst' _)).
        intros pre q Heq. apply app_inj_tail in Heq. destruct Heq as [_ <-]. exact B.
  Qed.
End ControllerFacts.

(** ** The schedule cursor, the CSV reader and the plant *)
Module ScheduleFacts.
Import TemperatureController.

Lemma read_schedule_lengths (float : string -> option Q) (file : csv_file) :
    List.length (snd (read_schedule_from_csv float file)) =
    List.length (fst (read_schedule_from_csv float file)).
  Proof.
    unfold read_schedule_from_csv.
    destruct (parse_schedule float file) as [sp st].
    destruct (negb (Nat.eqb (List.length st) (List.length sp))) eqn:E; simpl.
    - apply repeat_length.
    - apply negb_false_iff, Nat.eqb_eq in E. exact E.
  Qed.

Lemma parse_floats_none (float : string -> option Q) (cells : list string) :
    parse_floats float cells = None <->
    exists x, In x cells /\ strip x <> ""%string /\ float (strip x) = None.
  Proof.
    induction cells as [|x xs IH]; simpl.
    - split; [discriminate | intros [y [[] _]]].
    - destruct (String.eqb (strip x) "") eqn:Eb.
      + apply String.eqb_eq in Eb. rewrite IH. split.
        * intros [y [Hy Hr]]. exists y. split; [right; exact Hy | exact Hr].
        * intros [y [[<- | Hy] [Hne Hf]]]; [contradiction | exists y; auto].
      + apply String.eqb_neq in Eb.
        destruct (float (strip x)) as [q|] eqn:Ef.
        * destruct (parse_floats float xs) as [l|] eqn:Ep.
          -- split; [discriminate|]. intros [y [[<- | Hy] [Hne Hf]]].
             ++ rewrite Ef in Hf. discriminate Hf.
             ++ assert (Hn : Some l = None) by (apply IH; exists y; auto).
                discriminate Hn.
          -- split; [intros _|reflexivity].
             destruct (proj1 IH eq_refl) as [y [Hy Hr]]. exists y. split; [right; exact Hy | exact Hr].
        * split; [intros _|reflexivity]. exists x. auto.
  Qed.

Lemma parse_floats_some (float : string -> option Q) (cells : list string) (l : list Q) :
    parse_floats float cells = Some l ->
    Forall2 (fun x q => float (strip x) = Some q)
      (filter (fun x => negb (String.eqb (strip x) ""%string)) cells) l.
  Proof.
    revert l. induction cells as [|x xs IH]; intros l H; simpl in *.
    - injection H as <-. constructor.
    - destruct (String.eqb (strip x) "") eqn:Eb; simpl.
      + apply IH. exact H.
      + destruct (float (strip x)) as [q|] eqn:Ef; [|discriminate H].
        destruct (parse_floats float xs) as [l'|] eqn:Ep; [|discriminate H].
        injection H as <-. constructor; [exact Ef | apply IH; reflexivity].
  Qed.

  (** The schedule cursor is in range and points at the current target and
      dwell time. *)
Definition sched_inv (c : TemperatureController) : Prop :=
    List.length (setpoint_stable_times c) = List.length (setpoint_schedule c) /\
    nth_error (setpoint_schedule c) (schedule_index c) = Some (target_setpoint c) /\
    nth_error (setpoint_stable_times c) (schedule_index c) = Some (current_stable_time c).

  (** Controllers built by [__init__] and driven by any events. *)
Definition built (c : TemperatureController) : Prop :=
    exists (float : string -> option Q) (file : option csv_file) c0 es,
      __init__ float file = Some c0 /\ run c0 es = Some c.

Lemma init_with_sched_inv (sp st : list Q) (c : TemperatureController) :
    List.length st = List.length sp -> init_with sp st = Some c -> sched_inv c.
  Proof.
    intros Hl H. unfold init_with in H.
    destruct (nth_error sp 0) as [a|] eqn:Ea; [|discriminate H].
    destruct (nth_error st 0) as [b|] eqn:Eb; [|discriminate H].
    injection H as <-. unfold sched_inv; simpl. auto.
  Qed.

Lemma init_sched_inv (float : string -> option Q) (file : option csv_file)
      (c : TemperatureController) :
    __init__ float file = Some c -> sched_inv c.
  Proof.
    unfold __init__. destruct file as [file|].
    - pose proof (read_schedule_lengths float file) as Hl.
      destruct (read_schedule_from_csv float file) as [sp st]. simpl in Hl.
      apply init_with_sched_inv. exact Hl.
    - apply init_with_sched_inv. reflexivity.
  Qed.

Lemma advance_sched_inv (c c' : TemperatureController) :
    List.length (setpoint_stable_times c) = List.length (setpoint_schedule c) ->
    advance c = Some c' -> sched_inv c'.
  Proof.
    intros Hl H. unfold advance in H.
    destruct (nth_error (setpoint_schedule c) (S (schedule_index c))) eqn:E1;
      [|discriminate H].
    destruct (nth_error (setpoint_stable_times c) (S (schedule_index c))) eqn:E2;
      [|discriminate H].
    injection H as <-. unfold sched_inv; simpl. auto.
  Qed.

Lemma advance_total (c : TemperatureController) :
    sched_inv c ->
    Nat.leb (List.length (setpoint_schedule c) - 1) (schedule_index c) = false ->
    exists c', advance c = Some c'.
  Proof.
    intros [Hl [H1 H2]] L. apply Nat.leb_gt in L.
    unfold advance.
    destruct (nth_error (setpoint_schedule c) (S (schedule_index c))) eqn:E1.
    - destruct (nth_error (setpoint_stable_times c) (S (schedule_index c))) eqn:E2.
      + eexists. reflexivity.
      + apply nth_error_None in E2. lia.
    - apply nth_error_None in E1. lia.
  Qed.

Lemma uts_sched_inv (c c' : TemperatureController) (now thr : Q) (f : bool) :
    sched_inv c -> _update_target_setpoint c now thr = Some (c', f) -> sched_inv c'.
  Proof.
    intros Hinv H. pose proof (proj1 Hinv) as Hl.
    ControllerFacts.uts_split H; try exact Hinv;
      match goal with E : advance _ = Some _ |- _ =>
        exact (advance_sched_inv _ _ Hl E) end.
  Qed.

Lemma uts_total (c : TemperatureController) (now thr : Q) :
    sched_inv c -> exists r, _update_target_setpoint c now thr = Some r.
  Proof.
    intro Hinv. unfold _update_target_setpoint.
    destruct (_is_temperature_stable c (target_setpoint c) thr); [|eauto].
    destruct (stabilization_start_time c) as [s|]; [|eauto].
    destruct (Qle_bool (current_stable_time c) (now - s)); [|eauto].
    destruct (is_stable c); simpl;
      destruct (update_requested c); simpl; try (eexists; reflexivity);
      destruct (Nat.leb (List.length (setpoint_schedule c) - 1) (schedule_index c)) eqn:L;
      try (eexists; reflexivity);
      match goal with |- context [advance ?x] =>
        destruct (advance_total x Hinv L) as [c2 E]; rewrite E; eexists; reflexivity end.
  Qed.

Lemma step_sched_inv (c c' : TemperatureController) (e : event) (f : bool) :
    sched_inv c -> step c e = Some (c', f) -> sched_inv c'.
  Proof.
    intros Hinv H. destruct e as [t n | | b]; simpl in H.
    - apply ControllerFacts.update_uts in H. destruct H as [cs [temp H]].
      exact (uts_sched_inv (set_plant c cs temp) c' t (1#2) f Hinv H).
    - injection H as <- _. unfold request_update.
      destruct (is_debug_mode c); exact Hinv.
    - injection H as <- _. exact Hinv.
  Qed.

Lemma run_sched_inv (es : list event) (c c' : TemperatureController) :
    sched_inv c -> run c es = Some c' -> sched_inv c'.
  Proof.
    revert c. induction es as [|e es IH]; intros c Hinv H; simpl in H.
    - injection H as <-. exact Hinv.
    - destruct (step c e) as [[c1 f]|] eqn:E; [|discriminate H].
      exact (IH c1 (step_sched_inv _ _ _ _ Hinv E) H).
  Qed.

Lemma built_sched_inv (c : TemperatureController) : built c -> sched_inv c.
  Proof.
    intros [float [file [c0 [es [Hi Hr]]]]].
    exact (run_sched_inv es c0 c (init_sched_inv float file c0 Hi) Hr).
  Qed.

Lemma update_total (c : TemperatureController) (t n : Q) :
    sched_inv c -> exists r, update c t n = Some r.
  Proof.
    intro Hinv. unfold update.
    destruct (CryoSystem.update_temperature (cryo_system c) (target_setpoint c) n)
      as [temp cs].
    exact (uts_total (set_plant c cs temp) t (1#2) Hinv).
  Qed.

Lemma advance_debug (c c' : TemperatureController) :
    advance c = Some c' ->
    schedule_index c' = S (schedule_index c) /\
    update_requested c' = false /\ is_stable c' = false /\
    stabilization_start_time c' = None /\ is_debug_mode c' = is_debug_mode c.
  Proof.
    intro E. unfold advance in E.
    destruct (nth_error (setpoint_schedule c) (S (schedule_index c))); [|discriminate E].
    destruct (nth_error (setpoint_stable_times c) (S (schedule_index c))); [|discriminate E].
    injection E as <-. repeat split.
  Qed.

  (** What one event does to the schedule cursor. *)
Lemma step_cursor (c c' : TemperatureController) (e : event) (f : bool) :
    step c e = Some (c', f) ->
    (schedule_index c' = schedule_index c /\ target_setpoint c' = target_setpoint c /\
     current_stable_time c' = current_stable_time c /\
     is_debug_mode c' = (match e with SetDebugMode b => b | _ => is_debug_mode c end)) \/
    (update_requested c = true /\ schedule_index c' = S (schedule_index c) /\
     update_requested c' = false /\ is_stable c' = false /\
     stabilization_start_time c' = None /\ is_debug_mode c' = is_debug_mode c).
  Proof.
    destruct e as [t n | | b]; simpl; intro H.
    - apply ControllerFacts.update_uts in H. destruct H as [cs [temp H]].
      ControllerFacts.uts_split H; simpl in *;
        try (left; refine (conj eq_refl (conj eq_refl (conj eq_refl eq_refl)))).
      all: match goal with E : advance _ = Some _ |- _ =>
             apply advance_debug in E; simpl in E; right; tauto end.
    - injection H as <- _. unfold request_update. left.
      destruct (is_debug_mode c) eqn:D; simpl; rewrite ?D; auto.
    - injection H as <- _. left. simpl. auto.
  Qed.

  (** Plant facts. *)
Lemma py_max0_nonneg (x : Q) : 0 <= py_max 0 x.
  Proof.
    unfold py_max. destruct (Qltb 0 x) eqn:E.
    - apply Qltb_true in E. apply Qlt_le_weak. exact E.
    - apply Qle_refl.
  Qed.

Lemma py_max0_mono (x y : Q) : x <= y -> py_max 0 x <= py_max 0 y.
  Proof.
    intro H. unfold py_max.
    destruct (Qltb 0 x) eqn:Ex; destruct (Qltb 0 y) eqn:Ey;
      [apply Qltb_true in Ex; apply Qltb_true in Ey
      |apply Qltb_true in Ex; apply Qltb_false in Ey
      |apply Qltb_false in Ex; apply Qltb_true in Ey
      |apply Qltb_false in Ex; apply Qltb_false in Ey]; lra.
  Qed.

  (** Outside debug mode, with no request pending, events other than
      [set_debug_mode] leave the schedule cursor where it is. *)
Lemma step_nondebug (c c' : TemperatureController) (e : event) (f : bool) :
    is_debug_mode c = false -> update_requested c = false ->
    (forall b, e <> SetDebugMode b) -> step c e = Some (c', f) ->
    schedule_index c' = schedule_index c /\ target_setpoint c' = target_setpoint c /\
    current_stable_time c' = current_stable_time c /\
    is_debug_mode c' = false /\ update_requested c' = false.
  Proof.
    intros Hd Hr He H.
    destruct (step_cursor c c' e f H) as [[Hi [Ht [Hs Hdb]]] | [Hr' _]];
      [| rewrite Hr in Hr'; discriminate Hr'].
    destruct e as [t n | | b]; [| | exfalso; exact (He b eq_refl)]; simpl in H, Hdb.
    - destruct (ControllerFacts.update_no_request c c' t n f Hr H) as [_ [_ [Hq _]]].
      rewrite Hd in Hdb. auto.
    - injection H as <- _. unfold request_update. rewrite Hd. auto.
  Qed.

Lemma run_nondebug (es : list event) (c c' : TemperatureController) :
    is_debug_mode c = false -> update_requested c = false ->
    Forall (fun e => forall b, e <> SetDebugMode b) es -> run c es = Some c' ->
    schedule_index c' = schedule_index c /\ target_setpoint c' = target_setpoint c /\
    current_stable_time c' = current_stable_time c.
  Proof.
    revert c. induction es as [|e es IH]; intros c Hd Hr He H; simpl in H.
    - injection H as <-. auto.
    - inversion He as [|? ? He1 Hes]; subst.
      destruct (step c e) as [[c1 f]|] eqn:E; [|discriminate H].
      destruct (step_nondebug c c1 e f Hd Hr He1 E) as [Hi [Ht [Hs [Hd1 Hr1]]]].
      destruct (IH c1 Hd1 Hr1 Hes H) as [Hi' [Ht' Hs']].
      rewrite Hi', Ht', Hs'. auto.
  Qed.

Lemma step_total (c : TemperatureController) (e : event) :
    sched_inv c -> exists r, step c e = Some r.
  Proof.
    intro Hinv. destruct e as [t n | | b]; simpl; [exact (update_total c t n Hinv) | eauto | eauto].
  Qed.

Lemma run_total (es : list event) (c : TemperatureController) :
    sched_inv c -> exists c', run c es = Some c'.
  Proof.
    revert c. induction es as [|e es IH]; intros c Hinv; simpl; [eauto|].
    destruct (step_total c e Hinv) as [[c1 f] E]. rewrite E.
    exact (IH c1 (step_sched_inv c c1 e f Hinv E)).
  Qed.

End ScheduleFacts.

(** ** The simulated cooler instrument *)
(** ** Runs of ticks with any pending request *)
Module RunFacts.
Import TemperatureController.

  (** One tick from any state: it leaves the timer cleared and [is_stable]
      false (out of the band, or advancing the schedule from a running
      timer), or it ends in the band on the same schedule entry, starting
      the timer or keeping it. *)
Lemma update_cases (c c' : TemperatureController) (t n : Q) (f : bool) :
    update c t n = Some (c', f) ->
    (stabilization_start_time c' = None /\ is_stable c' = false /\
     (in_band c' = false \/
      ((exists s, stabilization_start_time c = Some s) /\
       schedule_index c' = S (schedule_index c)))) \/
    (in_band c' = true /\ schedule_index c' = schedule_index c /\
     current_stable_time c' = current_stable_time c /\
     match stabilization_start_time c with
     | None => stabilization_start_time c' = Some t /\ is_stable c' = is_stable c
     | Some s => stabilization_start_time c' = Some s /\
                 is_stable c' = (is_stable c || Qle_bool (current_stable_time c) (t - s))
     end).
  Proof.
    intro H. apply ControllerFacts.update_uts in H. destruct H as [cs [temp H]].
    ControllerFacts.uts_split H; simpl in *.
    all: first
      [ left; split; [reflexivity|]; split; [reflexivity|]; left;
        unfold in_band, _is_temperature_stable in *; simpl in *; assumption
      | match goal with E : advance _ = Some _ |- _ =>
          apply ControllerFacts.advance_spec in E; simpl in E;
          destruct E as [Es [Est [Ei _]]]; left;
          exact (conj Es (conj Est (or_intror (conj (ex_intro _ _ eq_refl) Ei)))) end
      | right; split; [unfold in_band, _is_temperature_stable in *; simpl in *; assumption|];
        split; [reflexivity|]; split; [reflexivity|]; split; [first [reflexivity | assumption]|];
        destruct (is_stable c); simpl in *; try reflexivity; discriminate ].
  Qed.

  (** With an update request pending, a tick that finds the temperature in
      the band of the current target once the dwell time has passed since
      the timer started advances the schedule when a next entry exists. *)
Lemma update_advances (c c' : TemperatureController) (t n s : Q) (f : bool) :
    update c t n = Some (c', f) ->
    update_requested c = true -> stabilization_start_time c = Some s ->
    py_abs (temperature c' - target_setpoint c) <= 1#2 ->
    current_stable_time c <= t - s ->
    (S (schedule_index c) < List.length (setpoint_schedule c))%nat ->
    schedule_index c' = S (schedule_index c) /\ is_stable c' = false /\
    stabilization_start_time c' = None /\ update_requested c' = false.
  Proof.
    intros H Hreq Hs Hband Hdw Hlen.
    apply (proj2 (Qle_bool_iff _ _)) in Hband. apply (proj2 (Qle_bool_iff _ _)) in Hdw.
    apply ControllerFacts.update_uts in H. destruct H as [cs [temp H]].
    ControllerFacts.uts_split H; simpl in *; try congruence.
    all: first
      [ match goal with E : advance _ = Some _ |- _ =>
          apply ControllerFacts.advance_spec in E; simpl in E; tauto end
      | exfalso; match goal with
        | E : (_ <=? _)%nat = true |- _ => apply Nat.leb_le in E; lia
        | E : _is_temperature_stable _ _ _ = false |- _ =>
            unfold _is_temperature_stable in E; simpl in E; congruence
        end ].
  Qed.

  (** The states recorded by a run of ticks, each obtained by [update()]
      from the one before. *)
Fixpoint ticked (c : TemperatureController) (posts : list (Q * TemperatureController))
      : Prop :=
    match posts with
    | [] => True
    | (t, c') :: ps => (exists n f, update c t n = Some (c', f)) /\ ticked c' ps
    end.

Lemma run_ticks_ticked (c : TemperatureController) (ticks : list (Q * Q))
      (posts : list (Q * TemperatureController)) :
    run_ticks c ticks = Some posts -> ticked c posts.
  Proof.
    revert c posts. induction ticks as [|[t n] ticks IH]; intros c posts H; simpl in H.
    - injection H as <-. exact I.
    - destruct (update c t n) as [[c1 f]|] eqn:U; [|discriminate H].
      destruct (run_ticks c1 ticks) as [ps|] eqn:R; simpl in H; [|discriminate H].
      injection H as <-. simpl. split; [exists n, f; exact U | exact (IH c1 ps R)].
  Qed.

Lemma final_state_app (c : TemperatureController) (l1 l2 : list (Q * TemperatureController)) :
    final_state c (l1 ++ l2) = final_state (final_state c l1) l2.
  Proof.
    revert c. induction l1 as [|[t c1] l1 IH]; intro c; simpl; [reflexivity | apply IH].
  Qed.

Lemma ticked_app (c : TemperatureController) (l1 l2 : list (Q * TemperatureController)) :
    ticked c (l1 ++ l2) -> ticked c l1 /\ ticked (final_state c l1) l2.
  Proof.
    revert c. induction l1 as [|[t c1] l1 IH]; intros c H; simpl in *.
    - split; [exact I | exact H].
    - destruct H as [U H]. destruct (IH c1 H) as [H1 H2].
      split; [split; [exact U | exact H1] | exact H2].
  Qed.

Lemma ticked_timer_inv (c : TemperatureController) (posts : list (Q * TemperatureController)) :
    ControllerFacts.timer_inv c -> ticked c posts ->
    ControllerFacts.timer_inv (final_state c posts).
  Proof.
    revert c. induction posts as [|[t c1] posts IH]; intros c Hinv H; simpl in *.
    - exact Hinv.
    - destruct H as [[n [f U]] H].
      exact (IH c1 (ControllerFacts.update_timer_inv _ _ _ _ _ Hinv U) H).
  Qed.

  (** The tick of a run at a given position. *)
Lemma ticked_at (c : TemperatureController) (pre post : list (Q * TemperatureController))
      (t : Q) (c' : TemperatureController) :
    ticked c (pre ++ (t, c') :: post) ->
    exists n f, update (final_state c pre) t n = Some (c', f).
  Proof. intro H. apply ticked_app in H. exact (proj1 (proj2 H)). Qed.

  (** In-band ticks that keep the schedule entry keep a running timer, and
      [is_stable] accumulates the dwell test of each of them. *)
Lemma ticked_keep (rest : list (Q * TemperatureController)) (c1 : TemperatureController)
      (s : Q) :
    ticked c1 rest -> stabilization_start_time c1 = Some s ->
    Forall (fun q => in_band (snd q) = true) rest ->
    Forall (fun q => schedule_index (snd q) = schedule_index c1) rest ->
    stabilization_start_time (final_state c1 rest) = Some s /\
    current_stable_time (final_state c1 rest) = current_stable_time c1 /\
    is_stable (final_state c1 rest) =
      (is_stable c1 ||
       existsb (fun q => Qle_bool (current_stable_time c1) (fst q - s)) rest).
  Proof.
    revert c1. induction rest as [|[t c2] rest IH]; intros c1 Ht Hs Hb Hi; simpl in *.
    - rewrite orb_false_r. auto.
    - destruct Ht as [[n [f U]] Ht].
      inversion Hb as [|x l Hb2 Hb' Ex]; subst. inversion Hi as [|x l Hi2 Hi' Ex]; subst.
      simpl in Hb2, Hi2.
      destruct (update_cases _ _ _ _ _ U) as [[_ [_ [Hout | [_ Hidx]]]] | [_ [_ [Hd Hc]]]].
      + rewrite Hout in Hb2. discriminate Hb2.
      + rewrite Hidx in Hi2. lia.
      + rewrite Hs in Hc. destruct Hc as [Hs2 Hst2].
        assert (Hi'' : Forall (fun q => schedule_index (snd q) = schedule_index c2) rest).
        { rewrite Hi2. exact Hi'. }
        destruct (IH c2 Ht Hs2 Hb' Hi'') as [R1 [R2 R3]].
        rewrite R1, R2, R3, Hd, Hst2, orb_assoc. auto.
  Qed.

  (** A tick that finds the band with the timer cleared starts it at its own
      time; later in-band ticks on the same entry compare with that time. *)
Lemma ticked_start (c0 : TemperatureController) (p : Q * TemperatureController)
      (rest : list (Q * TemperatureController)) :
    ticked c0 (p :: rest) -> stabilization_start_time c0 = None -> is_stable c0 = false ->
    Forall (fun q => in_band (snd q) = true) (p :: rest) ->
    Forall (fun q => schedule_index (snd q) = schedule_index (snd p)) rest ->
    stabilization_start_time (final_state c0 (p :: rest)) = Some (fst p) /\
    is_stable (final_state c0 (p :: rest)) =
      existsb (fun q => Qle_bool (current_stable_time (snd p)) (fst q - fst p)) rest.
  Proof.
    destruct p as [t c1]. simpl. intros [[n [f U]] Ht] Hs Hst Hb Hi.
    inversion Hb as [|x l Hb1 Hb' Ex]; subst. simpl in Hb1.
    destruct (update_cases _ _ _ _ _ U) as [[_ [_ [Hout | [[s Hs'] _]]]] | [_ [_ [_ Hc]]]].
    - rewrite Hout in Hb1. discriminate Hb1.
    - rewrite Hs in Hs'. discriminate Hs'.
    - rewrite Hs in Hc. destruct Hc as [Hs1 Hst1].
      destruct (ticked_keep rest c1 t Ht Hs1 Hb' Hi) as [R1 [_ R3]].
      rewrite R1, R3, Hst1, Hst. auto.
  Qed.

  (** The shape of every run of ticks from a state: the timer is cleared
      and [is_stable] false, or the run ends in an in-band stretch on one
      schedule entry that started the timer after a tick that left it
      cleared, or the whole run continued a timer running before it. *)
Definition gen_inv (c : TemperatureController) (posts : list (Q * TemperatureController)) : Prop :=
    let cf := final_state c posts in
    (stabilization_start_time cf = None /\ is_stable cf = false) \/
    (exists pre p rest,
       posts = pre ++ p :: rest /\
       stabilization_start_time (final_state c pre) = None /\
       Forall (fun q => in_band (snd q) = true) (p :: rest) /\
       Forall (fun q => schedule_index (snd q) = schedule_index (snd p)) rest /\
       schedule_index cf = schedule_index (snd p)) \/
    (exists s, stabilization_start_time c = Some s /\
       Forall (fun q => in_band (snd q) = true) posts /\
       Forall (fun q => schedule_index (snd q) = schedule_index c) posts /\
       schedule_index cf = schedule_index c).

Lemma gen_inv_holds (c : TemperatureController) (posts : list (Q * TemperatureController)) :
    ControllerFacts.timer_inv c -> ticked c posts -> gen_inv c posts.
  Proof.
    intros Hinv. induction posts as [|[t c'] posts IH] using rev_ind; intro Ht.
    - unfold gen_inv. simpl.
      destruct (stabilization_start_time c) as [s|] eqn:Es.
      + right. right. exists s. auto.
      + left. split; [reflexivity | exact (proj2 Hinv Es)].
    - destruct (ticked_app c posts [(t, c')] Ht) as [Ht0 [[n [f U]] _]].
      specialize (IH Ht0). unfold gen_inv in *. cbv zeta in *.
      rewrite ControllerFacts.final_state_snoc.
      destruct (update_cases _ _ _ _ _ U) as [[Hs [Hst _]] | [Hb [Hi [_ Hc]]]].
      + left. auto.
      + right.
        destruct (stabilization_start_time (final_state c posts)) as [s|] eqn:Es.
        * destruct Hc as [Hs' _].
          destruct IH as [[Hn _] | [[pre [p [rest [Hp [Hpre [Hb0 [Hi0 Hif]]]]]]] |
                                    [s0 [Hs0 [Hb0 [Hi0 Hif]]]]]].
          -- congruence.
          -- left. exists pre, p, (rest ++ [(t, c')]).
             split; [rewrite Hp, <- app_assoc; reflexivity|].
             split; [exact Hpre|]. split.
             { change (Forall (fun q => in_band (snd q) = true) ((p :: rest) ++ [(t, c')])).
               apply Forall_app. split; [exact Hb0 | constructor; [exact Hb | constructor]]. }
             split; [|simpl; congruence].
             apply Forall_app. split; [exact Hi0|]. constructor; [simpl; congruence | constructor].
          -- right. exists s0. split; [exact Hs0|]. split.
             { apply Forall_app. split; [exact Hb0 | constructor; [exact Hb | constructor]]. }
             split; [|simpl; congruence].
             apply Forall_app. split; [exact Hi0|]. constructor; [simpl; congruence | constructor].
        * left. exists posts, (t, c'), []. split; [reflexivity|].
          split; [exact Es|]. split; [constructor; [exact Hb | constructor]|].
          split; [constructor | reflexivity].
  Qed.

  (** Without a pending update request the ticks of a run keep the target
      and the dwell time. *)
Lemma ticked_no_request (c : TemperatureController) (posts : list (Q * TemperatureController)) :
    ticked c posts -> update_requested c = false ->
    forall q, In q posts ->
      target_setpoint (snd q) = target_setpoint c /\
      current_stable_time (snd q) = current_stable_time c.
  Proof.
    revert c. induction posts as [|[t c1] posts IH]; intros c Ht Hr q Hin; [destruct Hin|].
    destruct Ht as [[n [f U]] Ht].
    destruct (ControllerFacts.update_no_request _ _ _ _ _ Hr U) as [Ht1 [Hd1 [Hr1 _]]].
    destruct Hin as [<- | Hin]; [split; assumption|].
    destruct (IH c1 Ht Hr1 q Hin) as [A B]. split; congruence.
  Qed.
End RunFacts.

Module InstrumentFacts.
Import PidCoolerSimulator PidCoolerInstrument.

Ltac inst_cbn :=
    cbn [iface start_time time_history temp_history setpoint_history log_rows
         log_write_counter _last_logged_second set_iface set_log with_stability
         with_device with_auto_mode schedule device is_connected schedule_index
         target_setpoint dwell_time is_stable stabilization_start_time
         stable_duration auto_mode fst snd] in *.

Lemma outcome_self_map {A B : Type} (f : A -> B) (o : outcome A) :
    outcome_self (outcome_map f o) = f (outcome_self o).
  Proof. destruct o; reflexivity. Qed.

  (** The attributes the stability logic and the callbacks keep. *)
Definition inst_inv (c : InstrumentInterface) : Prop :=
    schedule c <> [] /\
    (schedule_index c < List.length (schedule c))%nat /\
    (device c = None -> is_connected c = false /\ is_stable c = false) /\
    (auto_mode c = true -> is_stable c = false).

Lemma go_next_returned (c : InstrumentInterface) (d : PIDCoolerSimulator) :
    schedule c <> [] -> device c = Some d ->
    exists c', _go_to_next_setpoint c = Returned c' /\
      schedule c' = schedule c /\
      (schedule_index c' < List.length (schedule c))%nat /\
      device c' <> None /\ is_connected c' = is_connected c /\
      is_stable c' = false /\ auto_mode c' = auto_mode c.
  Proof.
    intros Hne Hd. unfold _go_to_next_setpoint.
    destruct (schedule c) as [|it its] eqn:Es; [contradiction|].
    simpl List.length. cbv beta iota zeta.
    assert (Hlt : (S (schedule_index c) mod S (List.length its) < S (List.length its))%nat)
      by (apply Nat.mod_upper_bound; discriminate).
    destruct (nth_error (it :: its) (S (schedule_index c) mod S (List.length its))) eqn:En.
    - rewrite Hd. eexists. split; [reflexivity|]. inst_cbn.
      refine (conj eq_refl (conj Hlt (conj _ (conj eq_refl (conj eq_refl eq_refl))))).
      discriminate.
    - apply nth_error_None in En. simpl in En. lia.
  Qed.

Lemma go_next_inv (c : InstrumentInterface) :
    inst_inv c -> inst_inv (outcome_self (_go_to_next_setpoint c)).
  Proof.
    intros Hinv. pose proof Hinv as [Hne [Hlt [Hdev Hauto]]].
    destruct (device c) as [d|] eqn:Hd.
    - destruct (go_next_returned c d Hne Hd) as [c' [Hr [Hs [Hi [Hd' [Hc [Hst Ha]]]]]]].
      rewrite Hr. simpl. unfold inst_inv. rewrite Hs.
      refine (conj Hne (conj Hi (conj _ _))); intro H; [contradiction | exact Hst].
    - destruct (Hdev eq_refl) as [Hc Hst].
      unfold _go_to_next_setpoint.
      destruct (schedule c) as [|it its] eqn:Es; [contradiction|].
      simpl List.length. cbv beta iota zeta.
      assert (Hm : (S (schedule_index c) mod S (List.length its) < S (List.length its))%nat)
        by (apply Nat.mod_upper_bound; discriminate).
      destruct (nth_error (it :: its) (S (schedule_index c) mod S (List.length its))).
      + rewrite Hd. simpl. unfold inst_inv. inst_cbn.
        refine (conj Hne (conj Hm (conj _ _))); intros; [split|]; assumption.
      + exact Hinv.
  Qed.

Lemma log_data_iface (s : Instrument) (sec : string) (t sp : Q) (ok ov : bool) :
    iface (_log_data s sec t sp ok ov) = iface s /\
    start_time (_log_data s sec t sp ok ov) = start_time s /\
    time_history (_log_data s sec t sp ok ov) = time_history s /\
    temp_history (_log_data s sec t sp ok ov) = temp_history s /\
    setpoint_history (_log_data s sec t sp ok ov) = setpoint_history s.
  Proof.
    unfold _log_data.
    destruct (_last_logged_second s) as [l|]; [destruct (String.eqb l sec)|];
      destruct ok; try destruct (Nat.leb log_write_interval (S (log_write_counter s)));
      repeat split.
  Qed.

Lemma update_state_inv (s : Instrument) (e : env) :
    inst_inv (iface s) ->
    exists s', update_state s e = Returned s' /\ inst_inv (iface s').
  Proof.
    intros Hinv. pose proof Hinv as [Hne [Hlt [Hdev Hauto]]].
    unfold update_state.
    destruct (negb (is_connected (iface s))) eqn:Ec.
    - exists s. split; [reflexivity | exact Hinv].
    - apply negb_false_iff in Ec.
      destruct (device (iface s)) as [d|] eqn:Hd;
        [| destruct (Hdev eq_refl) as [Hc _]; rewrite Hc in Ec; discriminate Ec].
      destruct (get_temperature d (read_time e) (noise_time e)) as [temp d'].
      cbv zeta.
      match goal with |- context [_log_data ?x ?a ?b ?c ?f ?g] =>
        set (self2 := _log_data x a b c f g);
        assert (Hi : iface self2 = iface x) by apply log_data_iface end.
      rewrite Hi. inst_cbn.
      destruct (Qle_bool _ _).
      + destruct (negb (is_stable (iface s)) && _) eqn:Eb.
        * destruct (auto_mode (iface s)) eqn:Ea.
          -- match goal with |- context [_go_to_next_setpoint ?x] =>
               destruct (go_next_returned x d' Hne eq_refl)
                 as [c' [Hr [Hs [Hi' [Hd' [Hc [Hst Ha]]]]]]] end.
             rewrite Hr. simpl. eexists. split; [reflexivity|].
             unfold inst_inv. inst_cbn. rewrite Hs.
             refine (conj Hne (conj Hi' (conj _ _))); intro H; [contradiction | exact Hst].
          -- eexists. split; [reflexivity|]. unfold inst_inv. inst_cbn.
             refine (conj Hne (conj Hlt (conj _ _))); intro H; [discriminate H|].
             rewrite Ea in H. discriminate H.
        * eexists. split; [reflexivity|]. unfold inst_inv. inst_cbn.
          refine (conj Hne (conj Hlt (conj _ Hauto))); intro H; discriminate H.
      + eexists. split; [reflexivity|]. unfold inst_inv. inst_cbn.
        refine (conj Hne (conj Hlt (conj _ _))); intro H; [discriminate H | reflexivity].
  Qed.

Lemma lookup_some (c : InstrumentInterface) :
    schedule c <> [] -> exists q, next_setpoint_lookup c = Some q.
  Proof.
    intro Hne. unfold next_setpoint_lookup.
    destruct (nth_error (schedule c) _) as [it|] eqn:E; [eexists; reflexivity|].
    apply nth_error_None in E.
    destruct (schedule c) as [|x xs]; [contradiction|].
    assert (Hm := Nat.mod_upper_bound (S (schedule_index c)) (List.length (x :: xs))).
    simpl in Hm, E. lia.
  Qed.

Lemma update_display_inv (s : Instrument) (e : env) :
    inst_inv (iface s) ->
    exists s', update_display s e = Returned s' /\ inst_inv (iface s').
  Proof.
    intro Hinv. unfold update_display.
    destruct (update_state_inv s e Hinv) as [s' [Hr Hinv']]. rewrite Hr.
    destruct (lookup_some (iface s') (proj1 Hinv')) as [q Hq]. rewrite Hq.
    exists s'. split; [reflexivity | exact Hinv'].
  Qed.

Lemma ui_step_inv (s : Instrument) (ev : ui_event) :
    inst_inv (iface s) -> inst_inv (iface (outcome_self (ui_step s ev))).
  Proof.
    intro Hinv. pose proof Hinv as [Hne [Hlt [Hdev Hauto]]].
    destruct ev as [e | n | b | t1 t2 |]; simpl.
    - destruct (update_display_inv s e Hinv) as [s' [Hr Hinv']]. rewrite Hr. exact Hinv'.
    - unfold on_next_setpoint.
      destruct (_ && _); [|exact Hinv].
      rewrite outcome_self_map. exact (go_next_inv _ Hinv).
    - unfold on_auto_mode_toggle. inst_cbn.
      destruct (b && is_stable (iface s)) eqn:Eb.
      + rewrite outcome_self_map. cbn [iface set_iface].
        apply andb_true_iff in Eb. destruct Eb as [-> Hst].
        destruct (device (iface s)) as [d|] eqn:Hd.
        * destruct (go_next_returned (with_auto_mode (iface s) true) d Hne Hd)
            as [c' [Hr [Hs [Hi [Hd' [Hc [Hst' Ha]]]]]]].
          rewrite Hr. simpl. unfold inst_inv. rewrite Hs.
          refine (conj Hne (conj Hi (conj _ _))); intro H; [contradiction | exact Hst'].
        * destruct (Hdev eq_refl) as [_ Hf]. rewrite Hf in Hst. discriminate Hst.
      + cbn [outcome_self]. unfold inst_inv. inst_cbn.
        refine (conj Hne (conj Hlt (conj Hdev _))). intro Hb. rewrite Hb in Eb.
        exact Eb.
    - unfold inst_inv. inst_cbn.
      refine (conj Hne (conj Hlt (conj _ Hauto))). intro H; discriminate H.
    - unfold inst_inv. inst_cbn.
      refine (conj Hne (conj Hlt (conj _ Hauto))). intro H.
      split; [reflexivity | exact (proj2 (Hdev H))].
  Qed.

Lemma run_ui_inv (s : Instrument) (evs : list ui_event) :
    inst_inv (iface s) -> inst_inv (iface (run_ui s evs)).
  Proof.
    revert s. induction evs as [|ev evs IH]; intros s Hinv; simpl.
    - exact Hinv.
    - apply IH. apply ui_step_inv. exact Hinv.
  Qed.

Lemma init_inv (cfg : option (list schedule_item)) (rows : list (string * Q * Q)) :
    inst_inv (iface (__init__ cfg rows)).
  Proof.
    unfold __init__, inst_inv. inst_cbn.
    destruct cfg as [[|it its]|]; simpl;
      refine (conj _ (conj _ (conj _ _))); try discriminate; try lia;
      intros _; auto.
  Qed.

  (** The instrument after the three deque appends of [update_state]. *)
Definition sample (s : Instrument) (d' : PIDCoolerSimulator) (temp t : Q) : Instrument :=
    {| iface := with_device (iface s) (Some d') (is_connected (iface s));
       start_time := start_time s;
       time_history := deque_append HISTORY_MAXLEN (time_history s) t;
       temp_history := deque_append HISTORY_MAXLEN (temp_history s) temp;
       setpoint_history :=
         deque_append HISTORY_MAXLEN (setpoint_history s) (target_setpoint (iface s));
       log_rows := log_rows s;
       log_write_counter := log_write_counter s;
       _last_logged_second := _last_logged_second s |}.

Lemma update_state_shape (s : Instrument) (e : env) :
    outcome_self (update_state s e) = s \/
    exists d' temp c',
      outcome_self (update_state s e) =
      set_iface (_log_data (sample s d' temp (now e)) (now_second e) temp
                   (target_setpoint (iface s)) (append_ok e) (log_oversize e)) c'.
  Proof.
    unfold update_state.
    destruct (negb (is_connected (iface s))); [left; reflexivity|].
    destruct (device (iface s)) as [d|]; [|left; reflexivity].
    destruct (get_temperature d (read_time e) (noise_time e)) as [temp d'].
    right. exists d', temp. cbv zeta.
    repeat match goal with |- context [if ?b then _ else _] => destruct b end;
      first [eexists; reflexivity | rewrite outcome_self_map; eexists; reflexivity].
  Qed.

Lemma update_display_self (s : Instrument) (e : env) :
    outcome_self (update_display s e) = outcome_self (update_state s e).
  Proof.
    unfold update_display.
    destruct (update_state s e) as [s'|s']; [|reflexivity].
    destruct (next_setpoint_lookup (iface s')); reflexivity.
  Qed.

  (** [_go_to_next_setpoint] on a non-empty schedule, with and without a
      device. *)
Lemma go_next_spec (c : InstrumentInterface) (Hne : schedule c <> []) :
    let c' := outcome_self (_go_to_next_setpoint c) in
    schedule_index c' = Nat.modulo (S (schedule_index c)) (List.length (schedule c)) /\
    nth_error (schedule c) (schedule_index c') =
      Some (mkItem (target_setpoint c') (dwell_time c')) /\
    schedule c' = schedule c /\ auto_mode c' = auto_mode c /\
    (device c = None ->
       _go_to_next_setpoint c = Raised c' /\ device c' = None /\
       is_stable c' = is_stable c /\
       stabilization_start_time c' = stabilization_start_time c /\
       stable_duration c' = stable_duration c) /\
    (device c <> None ->
       _go_to_next_setpoint c = Returned c' /\
       is_stable c' = false /\ stabilization_start_time c' = None /\
       stable_duration c' = 0 /\
       option_map _setpoint (device c') = Some (target_setpoint c')).
  Proof.
    destruct c as [sch dev conn idx tgt dw st start dur auto]; simpl in *.
    destruct sch as [|x l]; [contradiction Hne; reflexivity|].
    unfold _go_to_next_setpoint; simpl List.length; cbv beta iota zeta.
    inst_cbn.
    remember (S idx mod S (List.length l))%nat as i eqn:Hi.
    assert (Hlt : (i < S (List.length l))%nat)
      by (subst i; apply Nat.mod_upper_bound; lia).
    destruct (nth_error (x :: l) i) as [[sp dt]|] eqn:En.
    2: { apply nth_error_None in En. simpl in En. lia. }
    destruct dev as [d|]; simpl.
    - refine (conj eq_refl (conj En (conj eq_refl (conj eq_refl (conj _ _))))).
      + intro H. discriminate H.
      + intros _. repeat split.
    - refine (conj eq_refl (conj En (conj eq_refl (conj eq_refl (conj _ _))))).
      + intros _. repeat split.
      + intro H. contradiction H. reflexivity.
  Qed.

  (** Before [connect()] the stability attributes are at their initial
      values. *)
Definition dev_inv (c : InstrumentInterface) : Prop :=
    device c = None ->
    is_stable c = false /\ stabilization_start_time c = None /\ stable_duration c = 0.

Lemma go_next_dev_inv (c : InstrumentInterface) :
    dev_inv c -> dev_inv (outcome_self (_go_to_next_setpoint c)).
  Proof.
    intro Hinv. unfold _go_to_next_setpoint.
    destruct (List.length (schedule c)) as [|k]; [exact Hinv|]. cbv zeta.
    destruct (nth_error (schedule c) _) as [it|]; [|exact Hinv].
    destruct (device c) as [d|] eqn:Hd; simpl.
    - intro H. discriminate H.
    - intros _. exact (Hinv Hd).
  Qed.

Lemma update_state_dev_inv (s : Instrument) (e : env) :
    dev_inv (iface s) -> dev_inv (iface (outcome_self (update_state s e))).
  Proof.
    intro Hinv. unfold update_state.
    destruct (negb (is_connected (iface s))); [exact Hinv|].
    destruct (device (iface s)) as [d|] eqn:Hd; [|exact Hinv].
    destruct (get_temperature d (read_time e) (noise_time e)) as [temp d']. cbv zeta.
    match goal with |- context [_log_data ?x ?a ?b ?c ?f ?g] =>
      set (self2 := _log_data x a b c f g);
      assert (Hi : iface self2 = iface x) by apply log_data_iface end.
    rewrite Hi. inst_cbn.
    repeat match goal with |- context [if ?b then _ else _] => destruct b end;
      cbn [outcome_self]; try rewrite outcome_self_map; cbn [iface set_iface];
      first [ apply go_next_dev_inv; intro H; inst_cbn; discriminate H
            | intro H; inst_cbn; discriminate H ].
  Qed.

Lemma ui_step_dev_inv (s : Instrument) (ev : ui_event) :
    dev_inv (iface s) -> dev_inv (iface (outcome_self (ui_step s ev))).
  Proof.
    intro Hinv. destruct ev as [e | n | b | t1 t2 |]; simpl.
    - rewrite update_display_self. exact (update_state_dev_inv s e Hinv).
    - unfold on_next_setpoint. destruct (_ && _); [|exact Hinv].
      rewrite outcome_self_map. exact (go_next_dev_inv _ Hinv).
    - unfold on_auto_mode_toggle.
      assert (H1 : dev_inv (iface (set_iface s (with_auto_mode (iface s) b))))
        by (unfold dev_inv; inst_cbn; exact Hinv).
      destruct (_ && _); [|exact H1].
      rewrite outcome_self_map. cbn [iface set_iface]. exact (go_next_dev_inv _ H1).
    - intro H. inst_cbn. discriminate H.
    - unfold dev_inv. inst_cbn. exact Hinv.
  Qed.

Lemma run_ui_dev_inv (s : Instrument) (evs : list ui_event) :
    dev_inv (iface s) -> dev_inv (iface (run_ui s evs)).
  Proof.
    revert s. induction evs as [|ev evs IH]; intros s Hinv; simpl.
    - exact Hinv.
    - apply IH. apply ui_step_dev_inv. exact Hinv.
  Qed.

Lemma init_dev_inv (cfg : option (list schedule_item)) (rows : list (string * Q * Q)) :
    dev_inv (iface (__init__ cfg rows)).
  Proof. intros _. repeat split. Qed.

  (** The CSV log: fewer than [log_write_interval] rows since the last
      trim check, no two adjacent rows stamped with the same second, and
      the last row stamped with [_last_logged_second]. *)
Definition log_inv (rows : list (string * Q * Q)) (counter : nat) (last : option string)
      : Prop :=
    (counter < log_write_interval)%nat /\
    (forall i r1 r2, nth_error rows i = Some r1 -> nth_error rows (S i) = Some r2 ->
       fst (fst r1) <> fst (fst r2)) /\
    (forall pre r, rows = pre ++ [r] -> last = Some (fst (fst r))).

Definition log_inv_of (s : Instrument) : Prop :=
    log_inv (log_rows s) (log_write_counter s) (_last_logged_second s).

Lemma adjacent_skipn {A : Type} (k : nat) (l : list A) (P : A -> A -> Prop) :
    (forall i x y, nth_error l i = Some x -> nth_error l (S i) = Some y -> P x y) ->
    forall i x y, nth_error (skipn k l) i = Some x ->
      nth_error (skipn k l) (S i) = Some y -> P x y.
  Proof.
    intros H i x y Hx Hy. rewrite nth_error_skipn in Hx, Hy.
    rewrite Nat.add_succ_r in Hy. exact (H _ _ _ Hx Hy).
  Qed.

Lemma adjacent_snoc {A : Type} (l : list A) (z : A) (P : A -> A -> Prop) :
    (forall i x y, nth_error l i = Some x -> nth_error l (S i) = Some y -> P x y) ->
    (forall pre w, l = pre ++ [w] -> P w z) ->
    forall i x y, nth_error (l ++ [z]) i = Some x ->
      nth_error (l ++ [z]) (S i) = Some y -> P x y.
  Proof.
    intros H Hlast i x y Hx Hy.
    destruct (Nat.lt_ge_cases (S i) (List.length l)) as [Hlt|Hge].
    - rewrite nth_error_app1 in Hx by lia. rewrite nth_error_app1 in Hy by lia.
      exact (H _ _ _ Hx Hy).
    - assert (Hy' := Hy). rewrite nth_error_app2 in Hy' by lia.
      destruct (S i - List.length l)%nat as [|j] eqn:Ej.
      + simpl in Hy'. injection Hy' as <-.
        rewrite nth_error_app1 in Hx by lia.
        destruct (exists_last (l := l)) as [pre [w Hw]].
        { intro E; subst l; simpl in Ej; lia. }
        pose proof (Hlast pre w Hw) as Hp. subst l.
        rewrite length_app in Ej, Hge. cbn [List.length] in Ej, Hge.
        rewrite nth_error_app2 in Hx by lia.
        replace (i - List.length pre)%nat with 0%nat in Hx by lia.
        simpl in Hx. injection Hx as <-. exact Hp.
      + simpl in Hy'. destruct j; discriminate Hy'.
  Qed.

Lemma skipn_snoc_last {A : Type} (k : nat) (l pre : list A) (z w : A) :
    (k <= List.length l)%nat -> skipn k (l ++ [z]) = pre ++ [w] -> w = z.
  Proof.
    intros Hk H. rewrite skipn_app in H.
    replace (k - List.length l)%nat with 0%nat in H by lia. simpl in H.
    apply app_inj_tail in H. symmetry. exact (proj2 H).
  Qed.

Lemma log_data_inv (s : Instrument) (sec : string) (t sp : Q) (ok ov : bool) :
    log_inv_of s -> log_inv_of (_log_data s sec t sp ok ov).
  Proof.
    intros Hinv. pose proof Hinv as [Hc [Hadj Hlast]].
    assert (Hnew : _last_logged_second s <> Some sec ->
      log_inv_of (if ok then
        if Nat.leb log_write_interval (S (log_write_counter s))
        then set_log s (_trim_log_file (log_rows s ++ [(sec, t, sp)]) ov) 0 (Some sec)
        else set_log s (log_rows s ++ [(sec, t, sp)]) (S (log_write_counter s)) (Some sec)
        else s)).
    { intro Hne.
      assert (Hadj' : forall i r1 r2,
        nth_error (log_rows s ++ [(sec, t, sp)]) i = Some r1 ->
        nth_error (log_rows s ++ [(sec, t, sp)]) (S i) = Some r2 ->
        fst (fst r1) <> fst (fst r2)).
      { apply adjacent_snoc; [exact Hadj|].
        intros pre w Hw. simpl. intro E. apply Hne.
        rewrite (Hlast pre w Hw), E. reflexivity. }
      assert (Hlast' : forall pre r,
        log_rows s ++ [(sec, t, sp)] = pre ++ [r] -> Some sec = Some (fst (fst r))).
      { intros pre r H. apply app_inj_tail in H. destruct H as [_ <-]. reflexivity. }
      destruct ok; [|exact (conj Hc (conj Hadj Hlast))].
      destruct (Nat.leb log_write_interval (S (log_write_counter s))) eqn:Ei.
      - unfold log_inv_of, log_inv, set_log. cbn [log_rows log_write_counter _last_logged_second].
        split; [unfold log_write_interval; lia|]. unfold _trim_log_file.
        destruct ov.
        + split; [apply adjacent_skipn; exact Hadj'|].
          intros pre r H. apply skipn_snoc_last in H.
          * subst r. reflexivity.
          * rewrite length_app. cbn [List.length].
            pose proof (Nat.Div0.mul_div_le (List.length (log_rows s) + 1) 4). lia.
        + exact (conj Hadj' Hlast').
      - unfold log_inv_of, log_inv, set_log. cbn [log_rows log_write_counter _last_logged_second].
        apply Nat.leb_gt in Ei. exact (conj Ei (conj Hadj' Hlast')). }
    unfold _log_data.
    destruct (_last_logged_second s) as [l|] eqn:El.
    - destruct (String.eqb l sec) eqn:Eq; [exact Hinv|].
      apply Hnew. intro E. injection E as E. subst l. rewrite String.eqb_refl in Eq.
      discriminate Eq.
    - apply Hnew. discriminate.
  Qed.

Lemma ui_step_log (s : Instrument) (ev : ui_event) :
    log_inv_of s -> log_inv_of (outcome_self (ui_step s ev)).
  Proof.
    intro H. destruct ev as [e | n | b | t1 t2 |]; simpl.
    - rewrite update_display_self.
      destruct (update_state_shape s e) as [-> | [d' [temp [c' ->]]]]; [exact H|].
      exact (log_data_inv (sample s d' temp (now e)) _ _ _ _ _ H).
    - unfold on_next_setpoint. destruct (_ && _); [|exact H].
      rewrite outcome_self_map. exact H.
    - unfold on_auto_mode_toggle. destruct (_ && _); [|exact H].
      rewrite outcome_self_map. exact H.
    - exact H.
    - exact H.
  Qed.

Lemma run_ui_log (s : Instrument) (evs : list ui_event) :
    log_inv_of s -> log_inv_of (run_ui s evs).
  Proof.
    revert s. induction evs as [|ev evs IH]; intros s H; simpl; [exact H|].
    apply IH, ui_step_log, H.
  Qed.

  (** The three plotting deques. *)
Definition hist_inv (s : Instrument) : Prop :=
    List.length (temp_history s) = List.length (time_history s) /\
    List.length (setpoint_history s) = List.length (time_history s) /\
    (List.length (time_history s) <= HISTORY_MAXLEN)%nat.

Lemma deque_append_length {A : Type} (d : list A) (x : A) :
    (List.length d <= HISTORY_MAXLEN)%nat ->
    List.length (deque_append HISTORY_MAXLEN d x) = Nat.min (S (List.length d)) HISTORY_MAXLEN.
  Proof.
    intro H. unfold deque_append. unfold HISTORY_MAXLEN in *.
    destruct (Nat.ltb (List.length d) 600) eqn:E.
    - apply Nat.ltb_lt in E. rewrite length_app. cbn [List.length]. lia.
    - apply Nat.ltb_ge in E. rewrite length_app.
      destruct d as [|y d]; cbn [List.length tl] in *; lia.
  Qed.

Lemma ui_step_hist (s : Instrument) (ev : ui_event) :
    hist_inv s -> hist_inv (outcome_self (ui_step s ev)).
  Proof.
    intro H. destruct ev as [e | n | b | t1 t2 |]; simpl.
    - rewrite update_display_self.
      destruct (update_state_shape s e) as [-> | [d' [temp [c' ->]]]]; [exact H|].
      destruct H as [H1 [H2 H3]].
      destruct (log_data_iface (sample s d' temp (now e)) (now_second e) temp
                  (target_setpoint (iface s)) (append_ok e) (log_oversize e))
        as [_ [_ [Ht [Hp Hs]]]].
      unfold hist_inv. cbn [set_iface time_history temp_history setpoint_history].
      rewrite Ht, Hp, Hs. unfold sample. cbn [time_history temp_history setpoint_history].
      rewrite !deque_append_length by lia. rewrite H1, H2.
      repeat split. unfold HISTORY_MAXLEN. lia.
    - unfold on_next_setpoint. destruct (_ && _); [|exact H].
      rewrite outcome_self_map. exact H.
    - unfold on_auto_mode_toggle. destruct (_ && _); [|exact H].
      rewrite outcome_self_map. exact H.
    - exact H.
    - exact H.
  Qed.

Lemma run_ui_hist (s : Instrument) (evs : list ui_event) :
    hist_inv s -> hist_inv (run_ui s evs).
  Proof.
    revert s. induction evs as [|ev evs IH]; intros s H; simpl; [exact H|].
    apply IH, ui_step_hist, H.
  Qed.

  (** [min] and [max] of a non-empty list. *)
Lemma py_min_list_spec (x : Q) (xs : list Q) :
    In (py_min_list x xs) (x :: xs) /\ (forall y, In y (x :: xs) -> py_min_list x xs <= y).
  Proof.
    revert x. induction xs as [|z zs IH]; intro x.
    - split; [left; reflexivity | intros y [<- | []]; apply Qle_refl].
    - unfold py_min_list in *. cbn [fold_left].
      set (a := if Qltb z x then z else x).
      assert (Ha : a <= x /\ a <= z /\ (a = x \/ a = z)).
      { unfold a. destruct (Qltb z x) eqn:E.
        - apply Qltb_true in E. split; [lra | split; [apply Qle_refl | right; reflexivity]].
        - apply Qltb_false in E. split; [apply Qle_refl | split; [exact E | left; reflexivity]]. }
      destruct (IH a) as [Hin Hle]. split.
      + destruct Hin as [Hm | Hin]; [| right; right; exact Hin].
        rewrite <- Hm. destruct Ha as [_ [_ [-> | ->]]]; [left | right; left]; reflexivity.
      + intros y [<- | [<- | Hy]].
        * apply Qle_trans with a; [apply Hle; left; reflexivity | apply Ha].
        * apply Qle_trans with a; [apply Hle; left; reflexivity | apply Ha].
        * apply Hle. right. exact Hy.
  Qed.

Lemma py_max_list_spec (x : Q) (xs : list Q) :
    In (py_max_list x xs) (x :: xs) /\ (forall y, In y (x :: xs) -> y <= py_max_list x xs).
  Proof.
    revert x. induction xs as [|z zs IH]; intro x.
    - split; [left; reflexivity | intros y [<- | []]; apply Qle_refl].
    - unfold py_max_list in *. cbn [fold_left].
      set (a := if Qltb x z then z else x).
      assert (Ha : x <= a /\ z <= a /\ (a = x \/ a = z)).
      { unfold a. destruct (Qltb x z) eqn:E.
        - apply Qltb_true in E. split; [lra | split; [apply Qle_refl | right; reflexivity]].
        - apply Qltb_false in E. split; [apply Qle_refl | split; [exact E | left; reflexivity]]. }
      destruct (IH a) as [Hin Hle]. split.
      + destruct Hin as [Hm | Hin]; [| right; right; exact Hin].
        rewrite <- Hm. destruct Ha as [_ [_ [-> | ->]]]; [left | right; left]; reflexivity.
      + intros y [<- | [<- | Hy]].
        * apply Qle_trans with a; [apply Ha | apply Hle; left; reflexivity].
        * apply Qle_trans with a; [apply Ha | apply Hle; left; reflexivity].
        * apply Hle. right. exact Hy.
  Qed.

Lemma py_min_spec (a b : Q) :
    py_min a b <= a /\ py_min a b <= b /\ (py_min a b = a \/ py_min a b = b).
  Proof.
    unfold py_min. destruct (Qltb b a) eqn:E.
    - apply Qltb_true in E. split; [lra | split; [apply Qle_refl | right; reflexivity]].
    - apply Qltb_false in E. split; [apply Qle_refl | split; [exact E | left; reflexivity]].
  Qed.

Lemma py_max_spec (a b : Q) :
    a <= py_max a b /\ b <= py_max a b /\ (py_max a b = a \/ py_max a b = b).
  Proof.
    unfold py_max. destruct (Qltb a b) eqn:E.
    - apply Qltb_true in E. split; [lra | split; [apply Qle_refl | right; reflexivity]].
    - apply Qltb_false in E. split; [apply Qle_refl | split; [exact E | left; reflexivity]].
  Qed.

  (** Python's float [%] by a positive modulus lands in [[0, y)]. *)
Lemma py_mod_bounds (x y : Q) : 0 < y -> 0 <= py_mod x y /\ py_mod x y < y.
  Proof.
    intro Hy. unfold py_mod.
    set (f := inject_Z (Qfloor (x / y))).
    assert (H1 : f <= x / y) by apply Qfloor_le.
    assert (H2 : x / y < f + 1).
    { unfold f. pose proof (Qlt_floor (x / y)) as H. rewrite inject_Z_plus in H. exact H. }
    assert (Hxy : y * (x / y) == x) by (field; intro E; rewrite E in Hy; discriminate Hy).
    assert (H3 : y * f <= y * (x / y)).
    { rewrite (Qmult_comm y f), (Qmult_comm y (x / y)).
      apply Qmult_le_compat_r; [exact H1 | apply Qlt_le_weak; exact Hy]. }
    assert (H4 : y * (x / y) < y * (f + 1)).
    { rewrite (Qmult_comm y (x / y)), (Qmult_comm y (f + 1)).
      apply Qmult_lt_compat_r; [exact Hy | exact H2]. }
    assert (H5 : y * (f + 1) == y * f + y) by ring.
    split; lra.
  Qed.

  (** [_parse_time]: the accepted values. *)
Lemma parse_hm_range (s : string) (h m : Z) :
    parse_hm s = Some (h, m) -> (0 <= h <= 23)%Z /\ (0 <= m <= 59)%Z.
  Proof.
    unfold parse_hm.
    destruct (split_colon s) as [|a [|b [|? ?]]]; try discriminate.
    destruct (py_int a) as [h0|]; [|discriminate].
    destruct (py_int b) as [m0|]; [|discriminate].
    destruct ((0 <=? h0)%Z && (h0 <=? 23)%Z && (0 <=? m0)%Z && (m0 <=? 59)%Z) eqn:E;
      [|discriminate].
    intro H. injection H as <- <-.
    repeat rewrite andb_true_iff in E. rewrite !Z.leb_le in E. lia.
  Qed.

Definition hm_roundtrip_ok : bool :=
    forallb (fun h => forallb (fun m =>
      match parse_hm (String.append (fmt_02d h) (String.append ":"%string (fmt_02d m))) with
      | Some (h', m') => Z.eqb h' (Z.of_nat h) && Z.eqb m' (Z.of_nat m)
      | None => false
      end) (seq 0 60)) (seq 0 24).

Lemma hm_roundtrip_ok_true : hm_roundtrip_ok = true.
  Proof. vm_compute. reflexivity. Qed.

Lemma parse_hm_fmt (h m : nat) :
    (h < 24)%nat -> (m < 60)%nat ->
    parse_hm (String.append (fmt_02d h) (String.append ":"%string (fmt_02d m))) =
    Some (Z.of_nat h, Z.of_nat m).
  Proof.
    intros Hh Hm. pose proof hm_roundtrip_ok_true as H. unfold hm_roundtrip_ok in H.
    rewrite forallb_forall in H.
    specialize (H h (proj2 (in_seq 24 0 h) (conj (Nat.le_0_l h) Hh))).
    rewrite forallb_forall in H.
    specialize (H m (proj2 (in_seq 60 0 m) (conj (Nat.le_0_l m) Hm))).
    destruct (parse_hm _) as [[h' m']|]; [|discriminate H].
    apply andb_true_iff in H. destruct H as [H1 H2].
    apply Z.eqb_eq in H1, H2. subst. reflexivity.
  Qed.

End InstrumentFacts.

(** ** The claims *)
Module Claims.
Import TemperatureController Scenarios.

  (** C1 (advancing resets the PID integral): the advance branch of
      [_update_target_setpoint] leaves the plant object, whose
      [integral_sum] is the one the control law uses, untouched; it only
      zeroes the controller's own [integral_sum].  On the default schedule,
      after [request_update()] and two ticks, the controller has advanced to
      298 K with [is_stable] false and its own [integral_sum] 0, while the
      plant's [integral_sum] is not 0. *)
Lemma advance_keeps_plant_integral :
    (forall c c' now thr f,
        _update_target_setpoint c now thr = Some (c', f) ->
        cryo_system c' = cryo_system c) /\
    match run default_controller advance_events with
    | Some c =>
        schedule_index c = 1%nat /\ target_setpoint c = 298 /\
        is_stable c = false /\ integral_sum c = 0 /\
        ~ (CryoSystem.integral_sum (cryo_system c) == 0)
    | None => False
    end.
  Proof.
    split.
    - exact ControllerFacts.uts_keeps_plant.
    - vm_compute. repeat split. intro H. discriminate H.
  Qed.

  (** C3 (anti-windup): when the previous command is not strictly inside
      (0, 100), in particular exactly 0 or exactly 100, [update_temperature]
      leaves [integral_sum] unchanged, whatever the error. *)
Theorem update_temperature_saturated_integral_frozen
      (cs : CryoSystem.CryoSystem) (target noise : Q)
      (Hsat : ~ (0 < CryoSystem.cooling_power cs /\ CryoSystem.cooling_power cs < 100)) :
    CryoSystem.integral_sum (snd (CryoSystem.update_temperature cs target noise)) =
    CryoSystem.integral_sum cs.
  Proof. exact (proj2 (PlantFacts.integral_step cs target noise) Hsat). Qed.

Lemma update_temperature_saturated_integral_frozen_witness :
    ~ (0 < CryoSystem.cooling_power (CryoSystem.init 300) /\
       CryoSystem.cooling_power (CryoSystem.init 300) < 100) /\
    CryoSystem.integral_sum
      (snd (CryoSystem.update_temperature (CryoSystem.init 300) 3 (1#10))) =
    CryoSystem.integral_sum (CryoSystem.init 300).
  Proof.
    assert (Hsat : ~ (0 < CryoSystem.cooling_power (CryoSystem.init 300) /\
                      CryoSystem.cooling_power (CryoSystem.init 300) < 100))
      by (simpl; intros [H _]; exact (Qlt_irrefl 0 H)).
    split; [exact Hsat|].
    exact (update_temperature_saturated_integral_frozen (CryoSystem.init 300) 3 (1#10) Hsat).
  Defined.

  (** C4 (timer cleared outside the band): in every controller state
      reachable by construction, ticks and update requests, if the last
      observed temperature is more than 0.5 K from the target then
      [stabilization_start_time] is [None] and [is_stable] is false. *)
Theorem reachable_out_of_band_timer_cleared (c : TemperatureController)
      (Hreach : reachable c)
      (Hout : (1#2) < py_abs (temperature c - target_setpoint c)) :
    stabilization_start_time c = None /\ is_stable c = false.
  Proof. exact (proj1 (ControllerFacts.reachable_timer_inv c Hreach) Hout). Qed.

Lemma reachable_out_of_band_timer_cleared_witness :
    reachable stable_controller /\
    is_stable stable_controller = true /\
    stabilization_start_time stable_controller = Some 1000 /\
    update stable_controller 1020 1 = Some (lost_controller, false) /\
    reachable lost_controller /\
    (1#2) < py_abs (temperature lost_controller - target_setpoint lost_controller) /\
    stabilization_start_time lost_controller = None /\ is_stable lost_controller = false.
  Proof.
    assert (Hr0 : reachable stable_controller)
      by (exists DEFAULT_SETPOINTS, DEFAULT_STABLE_TIMES, default_controller,
                 stabilizing_events; split; vm_compute; reflexivity).
    assert (Hr : reachable lost_controller)
      by (exists DEFAULT_SETPOINTS, DEFAULT_STABLE_TIMES, default_controller,
                 (stabilizing_events ++ [Tick 1020 1]); split; vm_compute; reflexivity).
    assert (Ho : (1#2) < py_abs (temperature lost_controller - target_setpoint lost_controller))
      by (vm_compute; reflexivity).
    split; [exact Hr0|]. split; [vm_compute; reflexivity|].
    split; [vm_compute; reflexivity|]. split; [vm_compute; reflexivity|].
    split; [exact Hr|]. split; [exact Ho|].
    exact (reachable_out_of_band_timer_cleared lost_controller Hr Ho).
  Defined.

  (** C5, as the code has it: when the parsed setpoint and dwell-time lists
      disagree in length, [read_schedule_from_csv] returns the setpoints
      with a dwell-time list of [DEFAULT_STABLE_TIMES[0]] (10 s) repeated
      once per setpoint, whatever dwell values the file provided. *)
Theorem read_schedule_mismatch_uses_default_dwell
      (float : string -> option Q) (file : csv_file)
      (Hmis : List.length (snd (parse_schedule float file)) <>
              List.length (fst (parse_schedule float file))) :
    read_schedule_from_csv float file =
      (fst (parse_schedule float file),
       repeat 10 (List.length (fst (parse_schedule float file)))).
  Proof.
    unfold read_schedule_from_csv.
    destruct (parse_schedule float file) as [sp st]. simpl in *.
    apply Nat.eqb_neq in Hmis. rewrite Hmis. reflexivity.
  Qed.

Lemma read_schedule_mismatch_uses_default_dwell_witness :
    List.length (snd (parse_schedule decimal_float mismatched_file)) <>
      List.length (fst (parse_schedule decimal_float mismatched_file)) /\
    read_schedule_from_csv decimal_float mismatched_file =
      (fst (parse_schedule decimal_float mismatched_file),
       repeat 10 (List.length (fst (parse_schedule decimal_float mismatched_file)))).
  Proof.
    assert (H : List.length (snd (parse_schedule decimal_float mismatched_file)) <>
                List.length (fst (parse_schedule decimal_float mismatched_file)))
      by (vm_compute; discriminate).
    split; [exact H|].
    exact (read_schedule_mismatch_uses_default_dwell decimal_float mismatched_file H).
  Defined.

  (** C5 fails as stated: setpoints [1, 2, 3] with dwell times [5, 5] give
      the dwell list [10, 10, 10], not the first provided value 5 repeated. *)
Lemma read_schedule_mismatch_ignores_provided_dwell :
    parse_schedule decimal_float mismatched_file = ([1; 2; 3], [5; 5]) /\
    read_schedule_from_csv decimal_float mismatched_file = ([1; 2; 3], [10; 10; 10]) /\
    snd (read_schedule_from_csv decimal_float mismatched_file) <> repeat 5 3.
  Proof.
    split; [vm_compute; reflexivity|]. split; [vm_compute; reflexivity|].
    vm_compute. discriminate.
  Qed.

  (** C6 (bounded command): after every [update_temperature] call,
      [cooling_power] lies in [[0, 100]] and equals the clamp to [[0, 100]] of
      [kp * error + ki * integral_sum - kd * derivative], with [error] the
      target minus the new filtered temperature, [integral_sum] the updated
      accumulator and [derivative] the change of the filtered temperature. *)
Theorem update_temperature_command_clamped
      (cs : CryoSystem.CryoSystem) (target noise : Q) :
    let cs' := snd (CryoSystem.update_temperature cs target noise) in
    0 <= CryoSystem.cooling_power cs' /\ CryoSystem.cooling_power cs' <= 100 /\
    CryoSystem.cooling_power cs' ==
      clamp_0_100
        (CryoSystem.kp cs * (target - CryoSystem.filtered_temp cs')
         + CryoSystem.ki cs * CryoSystem.integral_sum cs'
         - CryoSystem.kd cs * (CryoSystem.filtered_temp cs' - CryoSystem.last_filtered_temp cs)).
  Proof. exact (PlantFacts.output_step cs target noise). Qed.

  (** C7 (one call of [_on_stabilized] per episode): in every trace of
      events, a step that calls [_on_stabilized] starts with [is_stable]
      false and sets it true (the same tick resets it to false only when it
      also advances the schedule); and between two such calls some step
      ends with [is_stable] false. *)
Theorem on_stabilized_once_per_episode
      (c : TemperatureController) (es : list event) tr (j : nat)
      (pj cj : TemperatureController)
      (Htr : trace c es = Some tr) (Hj : nth_error tr j = Some (pj, cj, true)) :
    is_stable pj = false /\
    (is_stable cj = true \/
     (schedule_index cj = S (schedule_index pj) /\ is_stable cj = false)) /\
    (forall i pi ci, (i < j)%nat -> nth_error tr i = Some (pi, ci, true) ->
       exists k pk ck fk, (i <= k < j)%nat /\ nth_error tr k = Some (pk, ck, fk) /\
                          is_stable ck = false).
  Proof.
    destruct (ControllerFacts.trace_step es c tr j pj cj true Htr Hj) as [e He].
    destruct (ControllerFacts.step_fired pj cj e He) as [Hpre Hpost].
    split; [exact Hpre|]. split; [exact Hpost|].
    intros i pi ci Hij Hi.
    destruct j as [|k]; [lia|].
    destruct (ControllerFacts.trace_chain es c tr k pj cj true Htr Hj) as [p0 [f0 Hk]].
    exists k, p0, pj, f0. split; [lia|]. split; [exact Hk | exact Hpre].
  Qed.

Lemma on_stabilized_once_per_episode_witness :
    trace default_controller stabilizing_events = Some stabilizing_trace /\
    nth_error stabilizing_trace 1 =
      Some (fst (fst second_step), snd (fst second_step), true) /\
    is_stable (fst (fst second_step)) = false /\
    is_stable (snd (fst second_step)) = true.
  Proof.
    assert (Htr : trace default_controller stabilizing_events = Some stabilizing_trace)
      by (vm_compute; reflexivity).
    assert (Hj : nth_error stabilizing_trace 1 =
                 Some (fst (fst second_step), snd (fst second_step), true))
      by (vm_compute; reflexivity).
    destruct (on_stabilized_once_per_episode default_controller stabilizing_events
                stabilizing_trace 1 _ _ Htr Hj) as [Hpre [Hpost _]].
    split; [exact Htr|]. split; [exact Hj|]. split; [exact Hpre|].
    destruct Hpost as [Hpost | [Hidx _]]; [exact Hpost|].
    vm_compute in Hidx. discriminate Hidx.
  Defined.
  (** C8 (stability on the raw temperature): a tick stores the value
      returned by [update_temperature], which is the plant's raw
      [temperature], and judges stability on it through
      [_update_target_setpoint], whose outcome does not depend on the plant
      object (so not on the filtered temperature); the PID command of the
      same tick is computed from the filtered temperature. *)
Theorem stability_judged_on_raw_temperature (c : TemperatureController) (now noise : Q) :
    let r := CryoSystem.update_temperature (cryo_system c) (target_setpoint c) noise in
    fst r = CryoSystem.temperature (snd r) /\
    update c now noise = _update_target_setpoint (set_plant c (snd r) (fst r)) now (1#2) /\
    (forall cs2 : CryoSystem.CryoSystem,
       option_map (fun p => (scheduler_view (fst p), snd p))
         (_update_target_setpoint (set_plant c cs2 (fst r)) now (1#2)) =
       option_map (fun p => (scheduler_view (fst p), snd p)) (update c now noise)) /\
    CryoSystem.cooling_power (snd r) ==
      clamp_0_100
        (CryoSystem.kp (cryo_system c) * (target_setpoint c - CryoSystem.filtered_temp (snd r))
         + CryoSystem.ki (cryo_system c) * CryoSystem.integral_sum (snd r)
         - CryoSystem.kd (cryo_system c) *
             (CryoSystem.filtered_temp (snd r) - CryoSystem.last_filtered_temp (cryo_system c))).
  Proof.
    intro r.
    assert (Hupd : update c now noise =
                   _update_target_setpoint (set_plant c (snd r) (fst r)) now (1#2))
      by (unfold update; subst r; destruct (CryoSystem.update_temperature _ _ _); reflexivity).
    split; [subst r; reflexivity|]. split; [exact Hupd|]. split.
    - intro cs2. rewrite Hupd. apply ControllerFacts.uts_ignores_plant.
    - exact (proj2 (proj2 (PlantFacts.output_step (cryo_system c) (target_setpoint c) noise))).
  Qed.

  (** C9 (no stability on the tick that starts the timer): in a reachable
      state, a tick that begins with no running timer ends with [is_stable]
      false and does not call [_on_stabilized], whatever the dwell time
      (0 included); [is_stable] can only become true on a tick that begins
      with a running timer and finds the temperature in the band. *)
Theorem timer_start_tick_never_stable (c c' : TemperatureController) (now noise : Q)
      (f : bool) (Hreach : reachable c) (Hupd : update c now noise = Some (c', f)) :
    (stabilization_start_time c = None -> is_stable c' = false /\ f = false) /\
    (is_stable c = false -> is_stable c' = true ->
       (exists s, stabilization_start_time c = Some s) /\ in_band c' = true).
  Proof.
    destruct (ControllerFacts.reachable_timer_inv c Hreach) as [_ Hinv].
    apply ControllerFacts.update_uts in Hupd. destruct Hupd as [cs [temp H]].
    assert (P1 : stabilization_start_time c = None -> is_stable c' = false /\ f = false).
    { intro Hs. pose proof H as H0.
      ControllerFacts.uts_split H0; simpl in *;
        try (rewrite Hs in *; discriminate);
        split; try reflexivity; apply Hinv; exact Hs. }
    split; [exact P1|].
    intros Hpre Hpost.
    destruct (stabilization_start_time c) as [s0|] eqn:Es.
    - split; [exists s0; reflexivity|].
      destruct (ControllerFacts.uts_cases _ _ _ _ _ H) as [[_ Hst] | Hin].
      + rewrite Hst in Hpost. discriminate Hpost.
      + exact Hin.
    - destruct (P1 eq_refl) as [Hst _]. rewrite Hst in Hpost. discriminate Hpost.
  Qed.

Lemma timer_start_tick_never_stable_witness :
    reachable default_controller /\
    update default_controller 1000 0 = Some (fst first_tick, snd first_tick) /\
    stabilization_start_time default_controller = None /\
    is_stable (fst first_tick) = false /\ snd first_tick = false.
  Proof.
    assert (Hr : reachable default_controller)
      by (exists DEFAULT_SETPOINTS, DEFAULT_STABLE_TIMES, default_controller, [];
          split; reflexivity).
    assert (Hu : update default_controller 1000 0 = Some (fst first_tick, snd first_tick))
      by (vm_compute; reflexivity).
    split; [exact Hr|]. split; [exact Hu|]. split; [reflexivity|].
    exact (proj1 (timer_start_tick_never_stable default_controller (fst first_tick)
                    1000 0 (snd first_tick) Hr Hu) eq_refl).
  Defined.

  (** C10 (cyclic advance of the simulated cooler): on a non-empty schedule,
      [_go_to_next_setpoint] sets [schedule_index] to
      [(schedule_index + 1) mod len(schedule)] (0 after the last entry) and
      takes target and dwell time from that entry; with a device it returns
      with [is_stable] false, [stabilization_start_time] None and
      [stable_duration] 0, the device's setpoint updated; without one (before
      [connect()]) it raises [AttributeError] after the index update.  In
      every state of a session (from [__init__], whatever the callbacks and
      methods were called with) the call, returning or raising, leaves
      [is_stable] false, [stabilization_start_time] None and
      [stable_duration] 0: before [connect()] these still hold their initial
      values. *)
Theorem go_to_next_setpoint_wraps (s : PidCoolerSimulator.InstrumentInterface)
      (Hne : PidCoolerSimulator.schedule s <> []) :
    let s' := PidCoolerSimulator.outcome_self (PidCoolerSimulator._go_to_next_setpoint s) in
    let len := List.length (PidCoolerSimulator.schedule s) in
    PidCoolerSimulator.schedule_index s' =
      Nat.modulo (S (PidCoolerSimulator.schedule_index s)) len /\
    (PidCoolerSimulator.schedule_index s = (len - 1)%nat ->
       PidCoolerSimulator.schedule_index s' = 0%nat) /\
    nth_error (PidCoolerSimulator.schedule s) (PidCoolerSimulator.schedule_index s') =
      Some (PidCoolerSimulator.mkItem (PidCoolerSimulator.target_setpoint s')
                                      (PidCoolerSimulator.dwell_time s')) /\
    (PidCoolerSimulator.device s <> None ->
       PidCoolerSimulator._go_to_next_setpoint s = PidCoolerSimulator.Returned s' /\
       PidCoolerSimulator.is_stable s' = false /\
       PidCoolerSimulator.stabilization_start_time s' = None /\
       PidCoolerSimulator.stable_duration s' = 0 /\
       option_map PidCoolerSimulator._setpoint (PidCoolerSimulator.device s') =
         Some (PidCoolerSimulator.target_setpoint s')) /\
    (PidCoolerSimulator.device s = None ->
       PidCoolerSimulator._go_to_next_setpoint s = PidCoolerSimulator.Raised s') /\
    (forall cfg rows evs,
       s = PidCoolerInstrument.iface
             (PidCoolerInstrument.run_ui (PidCoolerInstrument.__init__ cfg rows) evs) ->
       PidCoolerSimulator.is_stable s' = false /\
       PidCoolerSimulator.stabilization_start_time s' = None /\
       PidCoolerSimulator.stable_duration s' = 0).
  Proof.
    pose proof (InstrumentFacts.go_next_spec s Hne) as G. cbv zeta in G |- *.
    destruct G as [Gi [Gn [_ [_ [Gnone Gsome]]]]].
    assert (Hlen : List.length (PidCoolerSimulator.schedule s) <> 0%nat)
      by (destruct (PidCoolerSimulator.schedule s); [exfalso; exact (Hne eq_refl) | discriminate]).
    split; [exact Gi|]. split.
    { intro Hl. rewrite Gi, Hl.
      replace (S (List.length (PidCoolerSimulator.schedule s) - 1))
        with (List.length (PidCoolerSimulator.schedule s)) by lia.
      apply Nat.Div0.mod_same. }
    split; [exact Gn|]. split; [exact Gsome|].
    split; [intro Hd; exact (proj1 (Gnone Hd))|].
    intros cfg rows evs Hs.
    destruct (PidCoolerSimulator.device s) as [d|] eqn:Hd.
    - assert (Hsome : Some d <> None) by discriminate.
      destruct (Gsome Hsome) as [_ [H1 [H2 [H3 _]]]]. auto.
    - destruct (Gnone eq_refl) as [_ [_ [H1 [H2 H3]]]].
      assert (Hinv : InstrumentFacts.dev_inv s).
      { rewrite Hs. apply InstrumentFacts.run_ui_dev_inv, InstrumentFacts.init_dev_inv. }
      destruct (Hinv Hd) as [I1 [I2 I3]].
      rewrite H1, H2, H3. auto.
  Qed.

Lemma go_to_next_setpoint_wraps_witness :
    PidCoolerSimulator.schedule cooler_on_last_entry <> [] /\
    PidCoolerSimulator.schedule_index
      (PidCoolerSimulator.outcome_self
         (PidCoolerSimulator._go_to_next_setpoint cooler_on_last_entry)) = 0%nat /\
    PidCoolerSimulator.is_stable
      (PidCoolerSimulator.outcome_self
         (PidCoolerSimulator._go_to_next_setpoint
            (PidCoolerInstrument.iface
               (PidCoolerInstrument.run_ui (PidCoolerInstrument.__init__ None [])
                  [PidCoolerInstrument.AutoToggle false])))) = false.
  Proof.
    assert (Hne : PidCoolerSimulator.schedule cooler_on_last_entry <> [])
      by (simpl; discriminate).
    assert (Hne2 : PidCoolerSimulator.schedule
                     (PidCoolerInstrument.iface
                        (PidCoolerInstrument.run_ui (PidCoolerInstrument.__init__ None [])
                           [PidCoolerInstrument.AutoToggle false])) <> [])
      by (vm_compute; discriminate).
    split; [exact Hne|]. split.
    - exact (proj1 (proj2 (go_to_next_setpoint_wraps cooler_on_last_entry Hne)) eq_refl).
    - exact (proj1 (proj2 (proj2 (proj2 (proj2 (proj2
               (go_to_next_setpoint_wraps _ Hne2))))) None [] [PidCoolerInstrument.AutoToggle false]
               eq_refl)).
  Defined.

  (** C2 (stability needs the band held through a positive interval):
      counterexample.  With a zero dwell time, the first tick finds the
      temperature in the band and starts the timer at its own time, so the
      band has held for 0 >= [current_stable_time] seconds, yet [is_stable]
      is still false after it. *)
Lemma zero_dwell_entry_tick_not_stable :
    match run_ticks zero_dwell_controller [(1000, 0)] with
    | Some [(t, c')] =>
        in_band c' = true /\ stabilization_start_time c' = Some t /\
        current_stable_time c' <= t - t /\ is_stable c' = false
    | _ => False
    end.
  Proof.
    vm_compute. refine (conj eq_refl (conj eq_refl (conj _ eq_refl))).
    intro H. discriminate H.
  Qed.

  (** C2 (amended): for every run of [update()] ticks from a reachable
      controller (any schedule, an update request pending or not):
      - every tick that ends out of the band leaves the timer cleared and
        [is_stable] false, and a tick leaves the timer cleared only when it
        ends out of the band or advances the schedule;
      - the run ends with [is_stable] true exactly when either its ticks end
        in a stretch [p :: rest] that is in the band on one schedule entry,
        entered with the timer cleared (by the tick before [p], or at the
        start), in which some later tick [q] has
        [time q - time p >= current_stable_time]; or the run started with a
        timer running since [s], stayed in the band on one entry, and
        [is_stable] was already true or some tick [q] has
        [time q - s >= current_stable_time].  The timer then holds the time
        of [p] (or [s]).  The tick [p] itself never counts, so a zero dwell
        time needs two in-band ticks;
      - with a request pending and a next schedule entry, a tick that finds
        the temperature within 0.5 K of the target once the dwell time has
        passed since the timer started advances the schedule and ends with
        [is_stable] false and the timer cleared;
      - with no request pending at the start, the target and the dwell time
        never change. *)
Theorem stable_iff_band_held_since_timer_start (c : TemperatureController)
      (ticks : list (Q * Q)) (posts : list (Q * TemperatureController))
      (Hreach : reachable c) (Hrun : run_ticks c ticks = Some posts) :
    (forall q, In q posts -> in_band (snd q) = false ->
       stabilization_start_time (snd q) = None /\ is_stable (snd q) = false) /\
    (forall pre q post, posts = pre ++ q :: post ->
       stabilization_start_time (snd q) = None ->
       is_stable (snd q) = false /\
       (in_band (snd q) = false \/
        schedule_index (snd q) = S (schedule_index (final_state c pre)))) /\
    (is_stable (final_state c posts) = true <->
     (exists pre p rest,
        posts = pre ++ p :: rest /\
        stabilization_start_time (final_state c pre) = None /\
        Forall (fun q => in_band (snd q) = true) (p :: rest) /\
        Forall (fun q => schedule_index (snd q) = schedule_index (snd p)) rest /\
        Exists (fun q => current_stable_time (snd p) <= fst q - fst p) rest) \/
     (exists s,
        stabilization_start_time c = Some s /\
        Forall (fun q => in_band (snd q) = true) posts /\
        Forall (fun q => schedule_index (snd q) = schedule_index c) posts /\
        (is_stable c = true \/
         Exists (fun q => current_stable_time c <= fst q - s) posts))) /\
    (forall pre p rest,
       posts = pre ++ p :: rest ->
       stabilization_start_time (final_state c pre) = None ->
       Forall (fun q => in_band (snd q) = true) (p :: rest) ->
       Forall (fun q => schedule_index (snd q) = schedule_index (snd p)) rest ->
       stabilization_start_time (final_state c posts) = Some (fst p)) /\
    (forall s,
       stabilization_start_time c = Some s ->
       Forall (fun q => in_band (snd q) = true) posts ->
       Forall (fun q => schedule_index (snd q) = schedule_index c) posts ->
       stabilization_start_time (final_state c posts) = Some s) /\
    (forall pre t c' post s,
       posts = pre ++ (t, c') :: post ->
       update_requested (final_state c pre) = true ->
       stabilization_start_time (final_state c pre) = Some s ->
       py_abs (temperature c' - target_setpoint (final_state c pre)) <= 1#2 ->
       current_stable_time (final_state c pre) <= t - s ->
       (S (schedule_index (final_state c pre)) <
          List.length (setpoint_schedule (final_state c pre)))%nat ->
       schedule_index c' = S (schedule_index (final_state c pre)) /\
       is_stable c' = false /\ stabilization_start_time c' = None) /\
    (update_requested c = false ->
       forall q, In q posts ->
         target_setpoint (snd q) = target_setpoint c /\
         current_stable_time (snd q) = current_stable_time c).
  Proof.
    pose proof (ControllerFacts.reachable_timer_inv c Hreach) as Hinv.
    pose proof (RunFacts.run_ticks_ticked c ticks posts Hrun) as Ht.
    assert (Hseg : forall pre p rest,
       posts = pre ++ p :: rest ->
       stabilization_start_time (final_state c pre) = None ->
       Forall (fun q => in_band (snd q) = true) (p :: rest) ->
       Forall (fun q => schedule_index (snd q) = schedule_index (snd p)) rest ->
       stabilization_start_time (final_state c posts) = Some (fst p) /\
       is_stable (final_state c posts) =
         existsb (fun q => Qle_bool (current_stable_time (snd p)) (fst q - fst p)) rest).
    { intros pre p rest Hp Hs Hb Hi. subst posts.
      destruct (RunFacts.ticked_app c pre (p :: rest) Ht) as [Hpre Hpr].
      pose proof (RunFacts.ticked_timer_inv c pre Hinv Hpre) as Hinv'.
      rewrite RunFacts.final_state_app.
      exact (RunFacts.ticked_start _ p rest Hpr Hs (proj2 Hinv' Hs) Hb Hi). }
    assert (Hcont : forall s,
       stabilization_start_time c = Some s ->
       Forall (fun q => in_band (snd q) = true) posts ->
       Forall (fun q => schedule_index (snd q) = schedule_index c) posts ->
       stabilization_start_time (final_state c posts) = Some s /\
       is_stable (final_state c posts) =
         (is_stable c ||
          existsb (fun q => Qle_bool (current_stable_time c) (fst q - s)) posts)).
    { intros s Hs Hb Hi.
      destruct (RunFacts.ticked_keep posts c s Ht Hs Hb Hi) as [R1 [_ R3]]. auto. }
    split.
    { intros q Hin Hout. destruct (in_split q posts Hin) as [l1 [l2 Hl]].
      destruct q as [t c']. rewrite Hl in Ht.
      destruct (RunFacts.ticked_at c l1 l2 t c' Ht) as [n [f U]].
      destruct (RunFacts.update_cases _ _ _ _ _ U) as [[Hs [Hst _]] | [Hb _]].
      - auto.
      - simpl in Hout. rewrite Hb in Hout. discriminate Hout. }
    split.
    { intros pre [t c'] post Hp Hs. simpl in Hs |- *. rewrite Hp in Ht.
      destruct (RunFacts.ticked_at c pre post t c' Ht) as [n [f U]].
      destruct (RunFacts.update_cases _ _ _ _ _ U)
        as [[_ [Hst [Hout | [_ Hidx]]]] | [_ [_ [_ Hc]]]].
      - auto.
      - auto.
      - destruct (stabilization_start_time (final_state c pre));
          destruct Hc as [Hc _]; rewrite Hs in Hc; discriminate Hc. }
    split.
    { split.
      - intro Hst.
        destruct (RunFacts.gen_inv_holds c posts Hinv Ht)
          as [[_ Hf] | [[pre [p [rest [Hp [Hs [Hb [Hi _]]]]]]] | [s [Hs [Hb [Hi _]]]]]].
        + rewrite Hf in Hst. discriminate Hst.
        + left. exists pre, p, rest. refine (conj Hp (conj Hs (conj Hb (conj Hi _)))).
          destruct (Hseg pre p rest Hp Hs Hb Hi) as [_ E]. rewrite E in Hst.
          apply existsb_exists in Hst. destruct Hst as [x [Hx Hq]].
          apply Exists_exists. exists x. split; [exact Hx|]. apply Qle_bool_iff. exact Hq.
        + right. exists s. refine (conj Hs (conj Hb (conj Hi _))).
          destruct (Hcont s Hs Hb Hi) as [_ E]. rewrite E in Hst.
          apply orb_true_iff in Hst. destruct Hst as [Hst | Hst]; [left; exact Hst|].
          right. apply existsb_exists in Hst. destruct Hst as [x [Hx Hq]].
          apply Exists_exists. exists x. split; [exact Hx|]. apply Qle_bool_iff. exact Hq.
      - intros [[pre [p [rest [Hp [Hs [Hb [Hi Hex]]]]]]] | [s [Hs [Hb [Hi Hex]]]]].
        + destruct (Hseg pre p rest Hp Hs Hb Hi) as [_ E]. rewrite E.
          apply existsb_exists. apply Exists_exists in Hex.
          destruct Hex as [x [Hx Hq]]. exists x. split; [exact Hx|].
          apply Qle_bool_iff. exact Hq.
        + destruct (Hcont s Hs Hb Hi) as [_ E]. rewrite E.
          apply orb_true_iff. destruct Hex as [Hex | Hex]; [left; exact Hex|].
          right. apply existsb_exists. apply Exists_exists in Hex.
          destruct Hex as [x [Hx Hq]]. exists x. split; [exact Hx|].
          apply Qle_bool_iff. exact Hq. }
    split.
    { intros pre p rest Hp Hs Hb Hi. exact (proj1 (Hseg pre p rest Hp Hs Hb Hi)). }
    split.
    { intros s Hs Hb Hi. exact (proj1 (Hcont s Hs Hb Hi)). }
    split.
    { intros pre t c' post s Hp Hreq Hs Hband Hdw Hlen. rewrite Hp in Ht.
      destruct (RunFacts.ticked_at c pre post t c' Ht) as [n [f U]].
      destruct (RunFacts.update_advances _ _ _ _ _ _ U Hreq Hs Hband Hdw Hlen)
        as [H1 [H2 [H3 _]]].
      auto. }
    { intro Hr. exact (RunFacts.ticked_no_request c posts Ht Hr). }
  Qed.

Lemma stable_iff_band_held_since_timer_start_witness :
    reachable requested_controller /\
    run_ticks requested_controller requested_ticks = Some requested_posts /\
    update_requested requested_controller = true /\
    schedule_index (snd (nth 1 requested_posts (0, placeholder))) = 1%nat /\
    is_stable (snd (nth 1 requested_posts (0, placeholder))) = false /\
    stabilization_start_time (snd (nth 1 requested_posts (0, placeholder))) = None.
  Proof.
    assert (Hr : reachable requested_controller)
      by (exists DEFAULT_SETPOINTS, DEFAULT_STABLE_TIMES, default_controller,
                 [RequestUpdate]; split; vm_compute; reflexivity).
    assert (Hrun : run_ticks requested_controller requested_ticks = Some requested_posts)
      by (vm_compute; reflexivity).
    destruct (stable_iff_band_held_since_timer_start requested_controller requested_ticks
                requested_posts Hr Hrun) as [_ [_ [_ [_ [_ [Hadv _]]]]]].
    assert (Hp : requested_posts =
                 firstn 1 requested_posts ++
                 (fst (nth 1 requested_posts (0, placeholder)),
                  snd (nth 1 requested_posts (0, placeholder))) ::
                 skipn 2 requested_posts)
      by (vm_compute; reflexivity).
    destruct (Hadv (firstn 1 requested_posts) (fst (nth 1 requested_posts (0, placeholder)))
                (snd (nth 1 requested_posts (0, placeholder))) (skipn 2 requested_posts)
                1000 Hp)
      as [H1 [H2 H3]].
    - vm_compute. reflexivity.
    - vm_compute. reflexivity.
    - vm_compute. intro H. discriminate H.
    - vm_compute. intro H. discriminate H.
    - apply Nat.ltb_lt. vm_compute. reflexivity.
    - split; [exact Hr|]. split; [exact Hrun|]. split; [vm_compute; reflexivity|].
      split; [rewrite H1; vm_compute; reflexivity|]. split; [exact H2 | exact H3].
  Defined.
End Claims.

(** ** Further properties of the controller and the plant *)
Module ControllerExtras.
Import TemperatureController Scenarios ScheduleFacts.

  (** X1: [read_schedule_from_csv] always returns two lists of the same
      length, whatever the file holds. *)
Theorem read_schedule_from_csv_lengths_agree (float : string -> option Q) (file : csv_file) :
    List.length (snd (read_schedule_from_csv float file)) =
    List.length (fst (read_schedule_from_csv float file)).
  Proof. exact (read_schedule_lengths float file). Qed.

  (** X2: [TemperatureController(config_file)] raises exactly when the
      setpoint list read from the file is empty (a [setpoints] row whose
      cells are all blank). *)
Theorem init_from_file_fails_iff_no_setpoints (float : string -> option Q) (file : csv_file) :
    __init__ float (Some file) = None <-> fst (read_schedule_from_csv float file) = [].
  Proof.
    pose proof (read_schedule_lengths float file) as Hl.
    unfold __init__. destruct (read_schedule_from_csv float file) as [sp st].
    simpl in *. unfold init_with.
    destruct sp as [|a sp]; destruct st as [|b st]; simpl in *;
      split; intro H; try reflexivity; try discriminate H; discriminate Hl.
  Qed.

  (** X3: the comprehension [[float(x.strip()) for x in cells if x.strip()]]
      raises exactly when some non-blank cell is not a float. *)
Theorem parse_floats_fails_iff_bad_cell (float : string -> option Q) (cells : list string) :
    parse_floats float cells = None <->
    exists x, In x cells /\ strip x <> ""%string /\ float (strip x) = None.
  Proof. exact (parse_floats_none float cells). Qed.

  (** X4: when it succeeds, the comprehension yields the floats of the
      non-blank cells, in order. *)
Theorem parse_floats_values (float : string -> option Q) (cells : list string) (l : list Q)
      (H : parse_floats float cells = Some l) :
    Forall2 (fun x q => float (strip x) = Some q)
      (filter (fun x => negb (String.eqb (strip x) ""%string)) cells) l.
  Proof. exact (parse_floats_some float cells l H). Qed.

Lemma parse_floats_values_witness :
    parse_floats decimal_float [" 1.5"%string; " "%string; "2"%string] = Some [15#10; 2] /\
    Forall2 (fun x q => decimal_float (strip x) = Some q)
      (filter (fun x => negb (String.eqb (strip x) ""%string))
         [" 1.5"%string; " "%string; "2"%string]) [15#10; 2].
  Proof.
    assert (H : parse_floats decimal_float [" 1.5"%string; " "%string; "2"%string] =
                Some [15#10; 2]) by (vm_compute; reflexivity).
    split; [exact H | exact (parse_floats_values _ _ _ H)].
  Defined.

  (** X5: a controller built by [__init__] and driven by any events keeps
      its schedule index in range, pointing at its current target and dwell
      time, and no further sequence of events makes it raise. *)
Theorem built_controller_never_raises (c : TemperatureController) (H : built c) :
    (schedule_index c < List.length (setpoint_schedule c))%nat /\
    nth_error (setpoint_schedule c) (schedule_index c) = Some (target_setpoint c) /\
    nth_error (setpoint_stable_times c) (schedule_index c) = Some (current_stable_time c) /\
    forall es, exists c', run c es = Some c'.
  Proof.
    pose proof (built_sched_inv c H) as Hinv. destruct Hinv as [Hl [H1 H2]].
    refine (conj _ (conj H1 (conj H2 _))).
    - apply nth_error_Some. rewrite H1. discriminate.
    - intro es. exact (run_total es c (conj Hl (conj H1 H2))).
  Qed.

Lemma built_controller_never_raises_witness :
    built default_controller /\ exists c', run default_controller advance_events = Some c'.
  Proof.
    assert (Hb : built default_controller).
    { exists decimal_float, None, default_controller, []. split; reflexivity. }
    split; [exact Hb|].
    exact (proj2 (proj2 (proj2 (built_controller_never_raises default_controller Hb)))
             advance_events).
  Defined.

  (** X6: one event either leaves the schedule index, target and dwell time
      as they were ([set_debug_mode] only setting the flag), or, only when
      an update was requested, moves the index on by one and clears the
      request, [is_stable] and the timer. *)
Theorem step_moves_cursor_by_at_most_one (c c' : TemperatureController) (e : event) (f : bool)
      (H : step c e = Some (c', f)) :
    (schedule_index c' = schedule_index c /\ target_setpoint c' = target_setpoint c /\
     current_stable_time c' = current_stable_time c /\
     is_debug_mode c' = (match e with SetDebugMode b => b | _ => is_debug_mode c end)) \/
    (update_requested c = true /\ schedule_index c' = S (schedule_index c) /\
     update_requested c' = false /\ is_stable c' = false /\
     stabilization_start_time c' = None /\ is_debug_mode c' = is_debug_mode c).
  Proof. exact (step_cursor c c' e f H). Qed.

Lemma step_moves_cursor_by_at_most_one_witness :
    step default_controller (Tick 1000 0) = Some (fst first_tick, snd first_tick) /\
    schedule_index (fst first_tick) = schedule_index default_controller.
  Proof.
    assert (H : step default_controller (Tick 1000 0) = Some (fst first_tick, snd first_tick))
      by (vm_compute; reflexivity).
    split; [exact H|].
    destruct (step_moves_cursor_by_at_most_one _ _ _ _ H) as [[Hi _] | [Hr _]];
      [exact Hi | vm_compute in Hr; discriminate Hr].
  Defined.

  (** X7: outside debug mode, with no request pending, a run of ticks and
      [request_update()] calls never changes the schedule index, the target
      or the dwell time. *)
Theorem nondebug_run_keeps_schedule (es : list event) (c c' : TemperatureController)
      (Hd : is_debug_mode c = false) (Hr : update_requested c = false)
      (He : Forall (fun e => forall b, e <> SetDebugMode b) es)
      (H : run c es = Some c') :
    schedule_index c' = schedule_index c /\ target_setpoint c' = target_setpoint c /\
    current_stable_time c' = current_stable_time c.
  Proof. exact (run_nondebug es c c' Hd Hr He H). Qed.

Lemma nondebug_run_keeps_schedule_witness :
    exists c', run (set_debug_mode default_controller false) advance_events = Some c' /\
      target_setpoint c' = target_setpoint default_controller.
  Proof.
    destruct (run (set_debug_mode default_controller false) advance_events) as [c'|] eqn:E;
      [| vm_compute in E; discriminate E].
    exists c'. split; [reflexivity|].
    refine (proj1 (proj2 (nondebug_run_keeps_schedule advance_events _ c' _ _ _ E)));
      [reflexivity | vm_compute; reflexivity |].
    repeat constructor; intros b Hb; discriminate Hb.
  Defined.

  (** X8: the plant temperature returned by [update_temperature] is the new
      stored temperature and is never negative. *)
Theorem update_temperature_nonnegative (cs : CryoSystem.CryoSystem) (target noise : Q) :
    fst (CryoSystem.update_temperature cs target noise) =
      CryoSystem.temperature (snd (CryoSystem.update_temperature cs target noise)) /\
    0 <= fst (CryoSystem.update_temperature cs target noise).
  Proof.
    unfold CryoSystem.update_temperature. cbv zeta. cbn [fst snd CryoSystem.temperature].
    split; [reflexivity | apply py_max0_nonneg].
  Qed.

  (** X9: with [filter_alpha] in [[0, 1]], the filtered temperature stays
      within any interval that holds both the previous filtered value and
      the new noisy reading; the filter coefficient is kept. *)
Theorem update_temperature_filter_in_range (cs : CryoSystem.CryoSystem) (target noise lo hi : Q)
      (Ha : 0 <= CryoSystem.filter_alpha cs <= 1)
      (Hr : lo <= CryoSystem.temperature cs + noise <= hi)
      (Hf : lo <= CryoSystem.filtered_temp cs <= hi) :
    lo <= CryoSystem.filtered_temp (snd (CryoSystem.update_temperature cs target noise)) <= hi /\
    CryoSystem.filter_alpha (snd (CryoSystem.update_temperature cs target noise)) =
      CryoSystem.filter_alpha cs.
  Proof.
    unfold CryoSystem.update_temperature. cbv zeta.
    cbn [snd CryoSystem.filtered_temp CryoSystem.filter_alpha].
    split; [|reflexivity].
    set (a := CryoSystem.filter_alpha cs) in *.
    set (r := CryoSystem.temperature cs + noise) in *.
    set (f := CryoSystem.filtered_temp cs) in *.
    destruct Ha as [Ha0 Ha1]. destruct Hr as [Hr0 Hr1]. destruct Hf as [Hf0 Hf1].
    assert (Hb : 0 <= 1 - a) by lra.
    pose proof (Qmult_le_compat_r _ _ _ Hr0 Ha0).
    pose proof (Qmult_le_compat_r _ _ _ Hr1 Ha0).
    pose proof (Qmult_le_compat_r _ _ _ Hf0 Hb).
    pose proof (Qmult_le_compat_r _ _ _ Hf1 Hb).
    split; lra.
  Qed.

Lemma update_temperature_filter_in_range_witness :
    300 <= CryoSystem.filtered_temp
             (snd (CryoSystem.update_temperature (CryoSystem.init 300) 290 (1#10))) <= 301.
  Proof.
    refine (proj1 (update_temperature_filter_in_range (CryoSystem.init 300) 290 (1#10)
                     300 301 _ _ _));
      simpl; split; vm_compute; intro Hc; discriminate Hc.
  Defined.

  (** X10: with a nonnegative cooling factor, one plant step moves the
      temperature by the passive drift (heat loss towards ambient plus the
      parasitic load) minus at most [cooling_effect_factor] of active
      cooling, clipped at 0. *)
Theorem update_temperature_cooling_bounds (cs : CryoSystem.CryoSystem) (target noise : Q)
      (Hc : 0 <= CryoSystem.cooling_effect_factor cs) :
    let drift := CryoSystem.heat_loss_coeff cs *
                   (CryoSystem.ambient_temp cs - CryoSystem.temperature cs)
                 + CryoSystem.parasitic_heat_load cs in
    py_max 0 (CryoSystem.temperature cs + drift - CryoSystem.cooling_effect_factor cs)
      <= fst (CryoSystem.update_temperature cs target noise) /\
    fst (CryoSystem.update_temperature cs target noise)
      <= py_max 0 (CryoSystem.temperature cs + drift).
  Proof.
    intro drift. unfold CryoSystem.update_temperature. cbv zeta. cbn [fst].
    match goal with |- context [py_max 0 (py_min 100 ?x)] =>
      destruct (py_clamp_spec x) as [H0 [H1 _]];
      set (co := py_max 0 (py_min 100 x)) in * end.
    set (k := CryoSystem.cooling_effect_factor cs) in *.
    assert (Hk0 : 0 <= k * co) by (apply Qmult_le_0_compat; assumption).
    assert (Hk1 : co * k <= 100 * k) by (apply Qmult_le_compat_r; assumption).
    assert (Hac : - k * co / 100 == - (1#100) * (k * co)) by field.
    unfold drift. split; apply py_max0_mono; lra.
  Qed.

Lemma update_temperature_cooling_bounds_witness :
    py_max 0 (300 + ((1#10000) * (300 - 300) + (1#10)) - 2)
      <= fst (CryoSystem.update_temperature (CryoSystem.init 300) 290 0).
  Proof.
    refine (proj1 (update_temperature_cooling_bounds (CryoSystem.init 300) 290 0 _)).
    vm_compute. intro Hc. discriminate Hc.
  Defined.

End ControllerExtras.

(** ** Further properties of the simulated cooler instrument *)
Module InstrumentExtras.
Import PidCoolerSimulator PidCoolerInstrument InstrumentFacts.

  (** X11: from [__init__] on, whatever the callbacks and the methods are
      called with, the schedule is non-empty and its index in range, an
      instrument without a device is neither connected nor stable, auto
      mode never rests on a stable state, and [update_display] never
      raises. *)
Theorem ui_session_invariant (cfg : option (list schedule_item))
      (rows : list (string * Q * Q)) (evs : list ui_event) :
    let s := run_ui (__init__ cfg rows) evs in
    schedule (iface s) <> [] /\
    (schedule_index (iface s) < List.length (schedule (iface s)))%nat /\
    (device (iface s) = None -> is_connected (iface s) = false /\ is_stable (iface s) = false) /\
    (auto_mode (iface s) = true -> is_stable (iface s) = false) /\
    (forall e, exists s', update_display s e = Returned s').
  Proof.
    intro s. pose proof (run_ui_inv _ evs (init_inv cfg rows)) as Hinv. fold s in Hinv.
    destruct Hinv as [H1 [H2 [H3 H4]]].
    refine (conj H1 (conj H2 (conj H3 (conj H4 _)))).
    intro e. destruct (update_display_inv s e (conj H1 (conj H2 (conj H3 H4)))) as [s' [Hr _]].
    exists s'. exact Hr.
  Qed.

  (** X12: in such a session a callback raises exactly when it is a click
      on the next-setpoint button in manual mode before any device was
      connected ([self.device] is [None]); the click then fails in
      [_go_to_next_setpoint] after moving [schedule_index] to
      [(schedule_index + 1) mod len(schedule)] and the target and dwell time
      to that entry, and the instrument keeps those attributes. *)
Theorem ui_step_raises_only_on_manual_next_without_device (cfg : option (list schedule_item))
      (rows : list (string * Q * Q)) (evs : list ui_event) (ev : ui_event) (s' : Instrument) :
    let s := run_ui (__init__ cfg rows) evs in
    ui_step s ev = Raised s' <->
    (exists n, ev = NextClick (Some (S n))) /\
    auto_mode (iface s) = false /\ device (iface s) = None /\
    s' = set_iface s (outcome_self (_go_to_next_setpoint (iface s))) /\
    schedule_index (iface s') =
      Nat.modulo (S (schedule_index (iface s))) (List.length (schedule (iface s))) /\
    nth_error (schedule (iface s)) (schedule_index (iface s')) =
      Some (mkItem (target_setpoint (iface s')) (dwell_time (iface s'))).
  Proof.
    intro s. pose proof (run_ui_inv _ evs (init_inv cfg rows)) as Hinv. fold s in Hinv.
    clearbody s. pose proof Hinv as [Hne [Hlt [Hdev Hauto]]].
    destruct (go_next_spec (iface s) Hne) as [Gi [Gn [_ [_ [Gnone _]]]]].
    split.
    - intro H. destruct ev as [e | n | b | t1 t2 |]; simpl in H.
      + destruct (update_display_inv s e Hinv) as [s2 [Hr _]]. rewrite Hr in H.
        discriminate H.
      + unfold on_next_setpoint in H.
        destruct n as [[|k]|]; cbn [andb] in H; try discriminate H.
        destruct (auto_mode (iface s)) eqn:Ea; cbn [negb] in H; [discriminate H|].
        destruct (device (iface s)) as [d|] eqn:Hd.
        * destruct (go_next_returned (iface s) d Hne Hd) as [c' [Hr _]].
          rewrite Hr in H. discriminate H.
        * destruct (Gnone eq_refl) as [Hraise _]. rewrite Hraise in H.
          cbn [outcome_map] in H. injection H as <-.
          split; [exists k; reflexivity|]. split; [reflexivity|]. split; [reflexivity|].
          split; [reflexivity|]. cbn [iface set_iface]. split; [exact Gi | exact Gn].
      + unfold on_auto_mode_toggle in H. cbn [iface set_iface] in H.
        destruct (auto_mode (with_auto_mode (iface s) b) && is_stable (with_auto_mode (iface s) b))
          eqn:Eb; [|discriminate H].
        cbn [auto_mode is_stable with_auto_mode] in Eb.
        apply andb_true_iff in Eb. destruct Eb as [Hb Hst].
        destruct (device (iface s)) as [d|] eqn:Hd.
        * destruct (go_next_returned (with_auto_mode (iface s) b) d Hne Hd) as [c' [Hr _]].
          rewrite Hr in H. discriminate H.
        * destruct (Hdev eq_refl) as [_ Hf]. rewrite Hf in Hst. discriminate Hst.
      + discriminate H.
      + discriminate H.
    - intros [[n ->] [Ha [Hd [-> _]]]]. simpl. unfold on_next_setpoint.
      rewrite Ha. cbn [andb negb].
      destruct (Gnone Hd) as [Hraise _]. rewrite Hraise. reflexivity.
  Qed.

Lemma ui_step_raises_only_on_manual_next_without_device_witness :
    ui_step (run_ui (__init__ (Some [mkItem 280 10; mkItem 260 20]) []) [AutoToggle false])
            (NextClick (Some 1%nat)) =
      Raised (set_iface
                (run_ui (__init__ (Some [mkItem 280 10; mkItem 260 20]) []) [AutoToggle false])
                (outcome_self (_go_to_next_setpoint
                   (iface (run_ui (__init__ (Some [mkItem 280 10; mkItem 260 20]) [])
                             [AutoToggle false]))))) /\
    target_setpoint
      (outcome_self (_go_to_next_setpoint
         (iface (run_ui (__init__ (Some [mkItem 280 10; mkItem 260 20]) [])
                   [AutoToggle false])))) = 260.
  Proof.
    pose proof (ui_step_raises_only_on_manual_next_without_device
                  (Some [mkItem 280 10; mkItem 260 20]) [] [AutoToggle false]
                  (NextClick (Some 1%nat))
                  (set_iface
                     (run_ui (__init__ (Some [mkItem 280 10; mkItem 260 20]) [])
                        [AutoToggle false])
                     (outcome_self (_go_to_next_setpoint
                        (iface (run_ui (__init__ (Some [mkItem 280 10; mkItem 260 20]) [])
                                  [AutoToggle false])))))) as H.
    cbv zeta in H. split; [|vm_compute; reflexivity].
    apply (proj2 H).
    split; [exists 0%nat; reflexivity|]. split; [vm_compute; reflexivity|].
    split; [vm_compute; reflexivity|]. split; [reflexivity|].
    split; vm_compute; reflexivity.
  Defined.

  (** X13: with a fresh log file, the CSV log never holds two consecutive
      rows stamped with the same second, its last row carries
      [_last_logged_second], and fewer than [log_write_interval] rows have
      been written since the last trim check. *)
Theorem log_file_invariant (cfg : option (list schedule_item)) (evs : list ui_event) :
    let s := run_ui (__init__ cfg []) evs in
    (log_write_counter s < log_write_interval)%nat /\
    (forall i r1 r2, nth_error (log_rows s) i = Some r1 ->
       nth_error (log_rows s) (S i) = Some r2 -> fst (fst r1) <> fst (fst r2)) /\
    (forall pre r, log_rows s = pre ++ [r] -> _last_logged_second s = Some (fst (fst r))).
  Proof.
    intro s. apply run_ui_log. unfold log_inv_of, log_inv. cbn.
    refine (conj _ (conj _ _)).
    - unfold log_write_interval. lia.
    - intros i r1 r2 H. destruct i; discriminate H.
    - intros pre r H. destruct pre; discriminate H.
  Qed.

  (** X14: the three plotting deques always have the same length, at most
      [HISTORY_MAXLEN]. *)
Theorem histories_aligned (cfg : option (list schedule_item))
      (rows : list (string * Q * Q)) (evs : list ui_event) :
    let s := run_ui (__init__ cfg rows) evs in
    List.length (temp_history s) = List.length (time_history s) /\
    List.length (setpoint_history s) = List.length (time_history s) /\
    (List.length (time_history s) <= HISTORY_MAXLEN)%nat.
  Proof.
    intro s. apply run_ui_hist. unfold hist_inv. cbn.
    refine (conj eq_refl (conj eq_refl _)). unfold HISTORY_MAXLEN. lia.
  Qed.

  (** X15: with defaults that are a valid time, [_parse_time] always returns
      an hour in 0..23 and a minute in 0..59. *)
Theorem parse_time_in_range (time_str : option string) (dh dm : Z)
      (Hh : (0 <= dh <= 23)%Z) (Hm : (0 <= dm <= 59)%Z) :
    (0 <= fst (_parse_time time_str dh dm) <= 23)%Z /\
    (0 <= snd (_parse_time time_str dh dm) <= 59)%Z.
  Proof.
    unfold _parse_time.
    destruct time_str as [s|]; [|simpl; auto].
    destruct (String.eqb s ""%string); [simpl; auto|].
    destruct (parse_hm s) as [[h m]|] eqn:E; [|simpl; auto].
    exact (parse_hm_range s h m E).
  Qed.

Lemma parse_time_in_range_witness :
    (0 <= fst (_parse_time (Some "25:00"%string) 23 59) <= 23)%Z.
  Proof.
    refine (proj1 (parse_time_in_range (Some "25:00"%string) 23 59 _ _)); lia.
  Defined.

  (** X16: [_parse_time] reads back every time written as [HH:MM]. *)
Theorem parse_time_roundtrip (h m : nat) (dh dm : Z) (Hh : (h < 24)%nat) (Hm : (m < 60)%nat) :
    _parse_time (Some (String.append (fmt_02d h) (String.append ":"%string (fmt_02d m)))) dh dm =
    (Z.of_nat h, Z.of_nat m).
  Proof.
    unfold _parse_time. rewrite (parse_hm_fmt h m Hh Hm). reflexivity.
  Qed.

Lemma parse_time_roundtrip_witness :
    _parse_time (Some "09:05"%string) 0 0 = (9%Z, 5%Z).
  Proof.
    exact (parse_time_roundtrip 9 5 0 0 ltac:(lia) ltac:(lia)).
  Defined.

  (** X17: when both the temperature history and the setpoint schedule are
      non-empty, the y-axis range is centred on the data, strictly contains
      every value, and the data span 90% of it (a fixed 10 K window when all
      values are equal). *)
Theorem yaxis_range_bounds (temps sps : list Q) (lo hi : Q)
      (H : yaxis_range temps sps = Some (lo, hi)) :
    exists mn mx, In mn (temps ++ sps) /\ In mx (temps ++ sps) /\
      (forall x, In x (temps ++ sps) -> mn <= x <= mx /\ lo < x < hi) /\
      lo + hi == mn + mx /\
      (mn == mx -> hi - lo == 10) /\
      (~ mn == mx -> (9#10) * (hi - lo) == mx - mn).
  Proof.
    unfold yaxis_range in H.
    destruct temps as [|t ts]; [discriminate H|]. destruct sps as [|s ss]; [discriminate H|].
    cbv zeta in H.
    destruct (py_min_list_spec t ts) as [Hi1 Hb1]. destruct (py_min_list_spec s ss) as [Hi2 Hb2].
    destruct (py_max_list_spec t ts) as [Hj1 Hc1]. destruct (py_max_list_spec s ss) as [Hj2 Hc2].
    destruct (py_min_spec (py_min_list t ts) (py_min_list s ss)) as [Hm1 [Hm2 Hm3]].
    destruct (py_max_spec (py_max_list t ts) (py_max_list s ss)) as [HM1 [HM2 HM3]].
    set (mn := py_min (py_min_list t ts) (py_min_list s ss)) in *.
    set (mx := py_max (py_max_list t ts) (py_max_list s ss)) in *.
    assert (Hall : forall x, In x ((t :: ts) ++ (s :: ss)) -> mn <= x <= mx).
    { intros x Hx. apply in_app_or in Hx. destruct Hx as [Hx | Hx]; split.
      - apply Qle_trans with (py_min_list t ts); [exact Hm1 | apply Hb1, Hx].
      - apply Qle_trans with (py_max_list t ts); [apply Hc1, Hx | exact HM1].
      - apply Qle_trans with (py_min_list s ss); [exact Hm2 | apply Hb2, Hx].
      - apply Qle_trans with (py_max_list s ss); [apply Hc2, Hx | exact HM2]. }
    assert (Hin_mn : In mn ((t :: ts) ++ (s :: ss))).
    { destruct Hm3 as [E | E]; rewrite E; apply in_or_app; [left | right]; assumption. }
    assert (Hin_mx : In mx ((t :: ts) ++ (s :: ss))).
    { destruct HM3 as [E | E]; rewrite E; apply in_or_app; [left | right]; assumption. }
    assert (Hle : mn <= mx) by (apply Qle_trans with mn; [apply Qle_refl | apply (Hall mn Hin_mn)]).
    exists mn, mx. refine (conj Hin_mn (conj Hin_mx _)).
    destruct (Qeq_bool mn mx) eqn:Eq; cbv beta iota in H.
    - apply Qeq_bool_iff in Eq. cbn [negb] in H. injection H as <- <-.
      refine (conj _ (conj _ (conj _ _))).
      + intros x Hx. destruct (Hall x Hx). split; [split|split]; lra.
      + lra.
      + intros _. lra.
      + intro Hn. contradiction.
    - apply Qeq_bool_neq in Eq. cbn [negb] in H.
      set (pad := ((mx - mn) / (9#10) - (mx - mn)) / 2) in H.
      assert (Hp : pad == (1#18) * (mx - mn)) by (unfold pad; field).
      assert (Hlt : mn < mx) by (apply Qle_lteq in Hle; destruct Hle as [Hl | Hl];
                                  [exact Hl | contradiction]).
      injection H as <- <-.
      refine (conj _ (conj _ (conj _ _))).
      + intros x Hx. destruct (Hall x Hx). split; [split|split]; lra.
      + lra.
      + intro Hn. contradiction.
      + intros _. lra.
  Qed.

Lemma yaxis_range_bounds_witness :
    exists lo hi, yaxis_range [1; 2; 3] [0; 5] = Some (lo, hi) /\
      forall x, In x ([1; 2; 3] ++ [0; 5]) -> lo < x < hi.
  Proof.
    destruct (yaxis_range [1; 2; 3] [0; 5]) as [[lo hi]|] eqn:E;
      [| vm_compute in E; discriminate E].
    exists lo, hi. split; [reflexivity|].
    destruct (yaxis_range_bounds _ _ _ _ E) as [mn [mx [_ [_ [Hb _]]]]].
    intros x Hx. exact (proj2 (Hb x Hx)).
  Defined.

  (** X18: in manual mode [update_state] never moves the schedule: index,
      target and dwell time are unchanged and the mode stays manual. *)
Theorem manual_update_state_keeps_setpoint (s : Instrument) (e : env)
      (Ha : auto_mode (iface s) = false) :
    let c' := iface (outcome_self (update_state s e)) in
    schedule_index c' = schedule_index (iface s) /\
    target_setpoint c' = target_setpoint (iface s) /\
    dwell_time c' = dwell_time (iface s) /\ auto_mode c' = false.
  Proof.
    intro c'. subst c'. unfold update_state.
    destruct (negb (is_connected (iface s))); [simpl; auto|].
    destruct (device (iface s)) as [d|]; [|simpl; auto].
    destruct (get_temperature d (read_time e) (noise_time e)) as [temp d'].
    cbv zeta.
    match goal with |- context [_log_data ?x ?a ?b ?c ?f ?g] =>
      set (self2 := _log_data x a b c f g);
      assert (Hi : iface self2 = iface x) by apply log_data_iface end.
    rewrite Hi. inst_cbn. rewrite Ha.
    repeat match goal with |- context [if ?b then _ else _] => destruct b end;
      cbn [outcome_self iface set_iface with_stability with_device schedule_index
           target_setpoint dwell_time auto_mode];
      auto.
  Qed.

Lemma manual_update_state_keeps_setpoint_witness :
    schedule_index (iface (outcome_self (update_state
      (run_ui (__init__ None []) [AutoToggle false; Connect 0 0])
      (mkEnv 10 10 10 "2025-01-01 00:00:10"%string true false)))) = 0%nat.
  Proof.
    refine (proj1 (manual_update_state_keeps_setpoint
                     (run_ui (__init__ None []) [AutoToggle false; Connect 0 0])
                     (mkEnv 10 10 10 "2025-01-01 00:00:10"%string true false) _)).
    vm_compute. reflexivity.
  Defined.

  (** X19: when the simulator is read again at the same clock reading
      ([dt = 0]), its velocity is unchanged and the reading differs from
      the stored temperature only by the noise term, in [[-0.05, 0.05)]. *)
Theorem simulator_zero_dt_reading (d : PIDCoolerSimulator) (current_time noise_time : Q)
      (Ht : current_time == last_update_time d) :
    -(1#20) <= fst (get_temperature d current_time noise_time) - _temperature d < 1#20 /\
    _velocity (snd (get_temperature d current_time noise_time)) == _velocity d.
  Proof.
    unfold get_temperature. cbv zeta. cbn [fst snd _velocity].
    assert (Hz : current_time - last_update_time d == 0) by lra.
    set (dt := current_time - last_update_time d) in *.
    destruct (py_mod_bounds noise_time (1#10) ltac:(reflexivity)) as [H0 H1].
    set (pm := py_mod noise_time (1#10)) in *.
    set (acc := (_setpoint d - _temperature d) * (2#25) - _velocity d * (1#5)).
    set (v := _velocity d + acc * dt * (1#10)).
    assert (Hv : v == _velocity d) by (unfold v; rewrite Hz; ring).
    assert (Hvd : v * dt == 0) by (rewrite Hz; ring).
    split; [split|]; lra.
  Qed.

Lemma simulator_zero_dt_reading_witness :
    -(1#20) <= fst (get_temperature (new_simulator 0) 0 (7#100)) - 300 < 1#20.
  Proof.
    refine (proj1 (simulator_zero_dt_reading (new_simulator 0) 0 (7#100) _)).
    vm_compute. reflexivity.
  Defined.

End InstrumentExtras.
